(* ===== verification/_CoqProject ===== *)
-Q . S2P
Prelude.v
Config.v
Random.v
Input.v
Cat.v
Obstacle.v
Collision.v
Spawn.v
Game.v
GameInv.v
Refinement.v
Storage.v
Order.v
Fairness.v
Render.v
