(* ===== verification/Prelude.v ===== *)
(** * Cat-Jump: a verification development of [src/index.tsx]

    The program is a browser endless-runner.  A cat stands at a fixed
    horizontal position on a ground line; obstacles (cacti, trash cans,
    birds) are spawned at the right edge of an 800-pixel field and scroll
    to the left; the round ends when the cat's hitbox meets an obstacle's.
    All of it lives in one TypeScript file, as free-standing global
    variables and two classes:

    - constants (lines 3-13): field size, ground line, cat geometry,
      jump force and gravity;
    - the input flags [keys] (lines 31-35) and the [keydown]/[keyup]
      listeners installed by [handleInput] (lines 343-368);
    - [class Cat] (lines 37-153): position, size, vertical speed,
      grounded and crouching flags; [update] applies input and gravity;
    - [class Obstacle] (lines 155-307): geometry drawn at random by its
      constructor, per-frame scrolling and retirement in [update];
    - [spawnObstacle] (lines 311-341): the minimum-gap spawn policy and
      the random choice of obstacle type;
    - [checkCollision] (lines 370-382): the axis-aligned test with
      fairness margins;
    - [resetGame], [gameLoop], [init] (lines 392-480): the session
      state (score, high score, frame counter, speed, phase flags,
      obstacle array), the per-frame step, the game-over transition with
      its [localStorage] write, and the [requestAnimationFrame] chain.

    Control per frame: the browser runs [gameLoop], which updates the
    cat, asks the spawn policy for at most one obstacle, updates every
    obstacle and tests it against the cat, drops retired obstacles,
    advances frame/score/speed, and either schedules the next frame or
    ends the round.  Key events arrive between frames and only set flags,
    except the start/restart edge on Space/ArrowUp.

    ** Files (in dependency order, as listed in _CoqProject)

    - [Prelude] (this file): the [game_scope] notations, the boolean
      strict order [Qltb] on rationals with its reflection lemma and
      [Proper] instances, the [qcase]/[qsolve]/[zdiv] tactics, the [game]
      hint database, floor bounds for [Math.floor(Math.random() * n)],
      [lastOpt], which models [arr[arr.length - 1]], and the lemmas that
      carry [ForallOrdPairs] through [push], [map] with [filter], and the
      last element.
    - [Config]: the constants of lines 3-13.
    - [Random]: the random source as a type class [RandomSource] with its
      law [RandomSourceOk], the state monad [Rnd] of drawing code, and two
      executable instances ([Lcg], [Scripted]) for the witnesses.
    - [Input]: the [keys] record and the flag updates of the listeners.
    - [Cat] (Module [Cat]): [class Cat]; [update] is [crouch], [jump],
      [physics] in source order.  [Cat_wf] is the geometric invariant.
    - [Obstacle] (Module [Obstacle]): [ObstacleType], [class Obstacle],
      its constructor [new_Obstacle] (drawing in source order) and
      [update]; [geometry_ok] is the per-type range of the spec.
    - [Collision]: [checkCollision], and the box contract it decides:
      the class [HasBox] gives each object its box, [collides] says some
      point lies inside both shrunk boxes.
    - [Spawn] (Module [Spawn]): [chooseType], [gapOpen], [spawnObstacle].
    - [Game] (Module [Game]): the global variables as the record [Game],
      [init], [resetGame], the [keydown]/[keyupG] listeners, the
      [forEach] loop [updateAll], the filter [live], the counter updates
      [nextScore]/[nextSpeed], [gameLoop], and the browser [handle],
      which runs listeners on key events and one pending [gameLoop]
      callback on an animation frame; [reachable] is the set of states
      reachable from [init] by any sequence of events.
    - [GameInv] (Module [GameInv]): the session invariant [Inv] and its
      preservation by every event.
    - [Refinement] (Module [Refinement]): the spec's phase machine
      ([Idle]/[Playing]/[GameOver] with frame counter and best score) and
      the simulation of the program by it through [abs].
    - [Storage] (Module [Storage]): the stored string of [localStorage],
      [saveHighScore] ([String(highScore)], line 448), [loadHighScore]
      ([Number(localStorage.getItem(...)) || 0], line 22), and the
      JavaScript conversions they call: [String_of_Z] for [String(n)] and
      [StringToNumber] for [Number(s)], the ECMAScript string-to-number
      grammar (white space, sign, decimal digits, fraction, exponent,
      [0x]/[0o]/[0b], [Infinity], [NaN]) with binary64 overflow and
      underflow; [JSNumber] is a number with its infinities and [NaN],
      [num_eq] its equality of values, with [Proper] instances.
    - [Order] (Module [Order]): the order of the obstacle array; the pair
      invariant [pairOk] and its preservation by the spawn policy, the
      obstacle updates and the filter.
    - [Fairness] (Module [Fairness]): the cat's trajectory under a held
      jump key against one ground obstacle at the starting speed.
    - [Render] (Module [Render]): the 2D canvas context as a state
      ([Canvas]: styles, current path, the list of painted shapes) with
      one [Draw] per context method the code calls; [drawCat],
      [drawObstacle] (with [drawCactus], [drawTrashCan], [drawBird]),
      [drawText], the score line [hudText], and [gameLoopDraw], the frame
      loop with its drawing, whose [forEach] ([updateAllDraw]) updates,
      draws and tests each obstacle in turn; [initDraw] is the first
      picture of [init].

    ** What the theorems show

    - Session ([Refinement], [GameInv], [Game]): the program refines the
      spec's phase machine (C1); every reachable state satisfies [Inv]
      (C2), among others exactly one frame callback is pending while the
      game runs, whence the speed/score schedule at frame 500 (C14) and
      no bird before frame 500 (C20); one frame does what the spec's
      step says, with game over decided on the obstacles kept by the
      filter (C3, C10, C13); restart resets everything but the high
      score (C7); the high score never decreases (C11).
    - Cat: the invariant is preserved by every update (C4); a jump starts
      only from the ground and leaves it in the same frame (C12, C16);
      every jump ends within 60 frames (C8); crouching in the air
      shrinks the hitbox at once (C22).
    - Obstacles and spawning: geometry ranges of every new obstacle for
      every lawful random source (C9); at most one obstacle per frame,
      beyond the speed-scaled gap floor (C6), a spawn is forced once the
      gap reaches its maximum (C15); the type thresholds (C21).
    - Collision: the four inequalities decide the box contract (C5);
      disjoint boxes never collide (C19); crouching clears every bird
      (C17); a standing cat is hit only by birds below y = 119 (C18).
    - Persistence ([Storage]): [Number(String(n)) || 0] is [n] for every
      integer below [10^21] (C23), so in every reachable state a reload
      recovers the high score and the integer storage of [Game] is exact
      (C24); a stored string with a character outside the numeric grammar
      reads as [NaN] and loads as [0] (C25); the loaded value is never
      [NaN] and is an infinity, [0] or a finite value in binary64's
      range (C26), while values the game never writes ([Infinity],
      [-5], [2.5]) are loaded as they read.
    - Order ([Order]): in every reachable state the obstacle array is
      sorted from left to right, so the front is the oldest and left-most
      obstacle; birds, 1.2 times faster, never overtake an obstacle
      spawned before them because of the spawn gap (C27).
    - Fairness ([Fairness]): at the starting speed a standing jump
      clears every cactus and trash can whose left edge is between 105
      and 169 pixels when the jump starts (C28); the lower end is tight.
    - Rendering ([Render]): the drawing frame loop has the state effect
      of [Game.gameLoop] ([Render.gameLoopDraw_state]); the frame that
      ends a record round paints the old best score, because the score
      line is drawn before the high score is raised (C29); every running
      frame paints a score line whose two fields read back as the old
      high score and the new score, in that order (C30); the cat's
      picture is its hitbox plus ears, tail and legs at most 8 pixels
      outside (C31); an obstacle's picture lies in its hitbox widened by
      5 pixels left and up, a cactus inside it (C32).

    ** Bounds

    - [airborne_lands] uses 60 frames: from feet on screen
      ([y + h >= 0]) and upward speed at most 11, the closed form of the
      trajectory ([Cat.iter_airborne]) puts the feet below the ground
      after 60 frames (a standing jump keeps the cat airborne for 37
      frames); no fuel is involved.
    - The frame-500 statements are the first step of the speed ramp.
    - [String(n)] prints plain decimal digits only for [|n| < 10^21]
      (beyond, it switches to exponent notation), hence the bound of
      C23, C24 and C30; a score reaches it only after [5 * 10^21] frames.
    - The jump window of C28: the cat's feet are at most at [y = 129]
      from the 5th to the 33rd frame of the jump, checked by evaluating
      the trajectory ([Fairness.highFrames]); an obstacle at most 60
      wide that moves 5 pixels a frame is right of the cat before the
      5th frame when [x0 >= 105] and left of it from the 34th when
      [x0 <= 169].
    - The order invariant uses the gap floor [250 + 15 * speed >= 325]
      and the width bound 60: an obstacle before a new bird has
      [1.2 * x + 0.2 * w < 800].

    ** Modelling choices

    - A JavaScript [number] that carries a coordinate, speed or random
      draw is an exact rational [Q]; IEEE-754 rounding is not modelled
      (so [0.6] added 18 times is exactly [10.8] here).  Counters that are
      always integers (frame, score, high score, cluster size) are [Z];
      they stay far below 2^53, the largest integer a double holds
      exactly, for any realistic session, and no wrap-around is modelled.
    - [Math.random()] is an injectable random source (the type class
      [RandomSource] of file [Random]) with the law [0 <= r < 1];
      theorems about randomised code are proved for every source that
      satisfies the law.  Draws are taken in the order of the source.
    - The browser is an event handler ([Game.handle]): key events run
      the listeners; an animation frame runs one pending callback.  The
      [requestAnimationFrame] queue is the count [pending];
      [cancelAnimationFrame(requestID)] at game over names the callback
      that is already running and has no effect.
    - [localStorage] is modelled at two levels: the session model
      [Game] keeps the stored value as an optional integer, and
      [Storage] models the stored string with [String()] and [Number()];
      C24 shows that the two agree on every reachable state.  [Number()]
      keeps exact rationals inside binary64's range: it does not round
      to the nearest double.

    ** Not modelled

    The pixels: [Render] stops at the list of painting operations with
    their geometry, colours, fonts and texts; how the browser rasterises
    them (anti-aliasing, the glyphs of "Courier New", the 2-pixel ground
    line's width) is not modelled.  [init]'s polling for the canvas
    element (line 478) and the [if (!ctx) return] guards: the
    development starts from a page where the canvas exists.

    ** Plan for further work

    Next: the jump window at the higher speeds of the ramp and for
    birds (crouch timing); bounds on the reachable cat trajectory (apex
    height); the auto-repeat restart as an explicit trace of events.
*)

From Stdlib Require Import QArith Qround Lqa Lia ZArith List Bool Morphisms.
Import ListNotations.

Declare Scope game_scope.
Delimit Scope game_scope with game.

(** ** Strict comparison of rationals as a boolean

    The code compares numbers with [<] inside [if] conditions and
    boolean conjunctions; the Standard Library gives [Qle_bool] only, so
    the strict test is its negation with the arguments swapped. *)

Definition Qltb (x y : Q) : bool := negb (Qle_bool y x).

(** [simpl] keeps the comparison folded, so that [qcase] finds it. *)
#[global] Arguments Qltb : simpl never.
#[global] Arguments Qfloor : simpl never.

Infix "<?" := Qltb (at level 70, no associativity) : game_scope.
Infix "<=?" := Qle_bool (at level 70, no associativity) : game_scope.

Open Scope Q_scope.
Open Scope game_scope.

Lemma Qltb_spec (x y : Q) : BoolSpec (x < y) (y <= x) (x <? y).
Proof.
  unfold Qltb; destruct (Qle_bool y x) eqn:E; constructor.
  - now apply Qle_bool_iff.
  - apply Qnot_le_lt; intro H; apply Qle_bool_iff in H; congruence.
Qed.

Lemma Qltb_iff (x y : Q) : (x <? y) = true <-> x < y.
Proof. destruct (Qltb_spec x y); split; intros; auto; try discriminate; lra. Qed.

Lemma Qltb_false_iff (x y : Q) : (x <? y) = false <-> y <= x.
Proof. destruct (Qltb_spec x y); split; intros; auto; try discriminate; lra. Qed.

Lemma Qle_bool_spec (x y : Q) : BoolSpec (x <= y) (y < x) (x <=? y).
Proof.
  destruct (Qle_bool x y) eqn:E; constructor.
  - now apply Qle_bool_iff.
  - apply Qnot_le_lt; intro H; apply Qle_bool_iff in H; congruence.
Qed.

(** The comparisons only depend on the values of the rationals, not on
    their representation: [Qeq]-equal arguments give the same boolean. *)

#[export] Instance Qltb_Proper : Proper (Qeq ==> Qeq ==> eq) Qltb.
Proof.
  intros a b Hab c d Hcd.
  destruct (Qltb_spec a c), (Qltb_spec b d); auto; exfalso; lra.
Qed.

#[export] Instance Qle_bool_Proper : Proper (Qeq ==> Qeq ==> eq) Qle_bool.
Proof.
  intros a b Hab c d Hcd.
  destruct (Qle_bool_spec a c), (Qle_bool_spec b d); auto; exfalso; lra.
Qed.

(** [qcase] splits on the first rational comparison of the goal and
    leaves its outcome as a hypothesis in [Prop], where [lra] reads it. *)

Ltac qcase :=
  match goal with
  | |- context [?a <? ?b] => destruct (Qltb_spec a b)
  | |- context [Qle_bool ?a ?b] => destruct (Qle_bool_spec a b)
  end.

(** [qsolve] closes a goal made of rational (in)equalities, after
    splitting conjunctions. *)

Ltac qsolve := repeat split; try lra.

(** [zdiv] closes integer goals with [/] and [mod] by constants, after
    turning each quotient and remainder into its defining equations. *)
Ltac zdiv := Z.div_mod_to_equations; lia.

Create HintDb game.

(** ** [Math.floor(Math.random() * n) + 1]

    Cluster sizes are drawn as [Math.floor(r * n) + 1] for a draw
    [0 <= r < 1]; the result is an integer of [1 .. n]. *)

Lemma floor_draw_bounds (r : Q) (n : Z) :
  0 <= r -> r < 1 -> (0 < n)%Z ->
  (1 <= Qfloor (r * inject_Z n) + 1 <= n)%Z.
Proof.
  intros H0 H1 Hn.
  assert (Hn' : 0 < inject_Z n) by (change 0 with (inject_Z 0); rewrite <- Zlt_Qlt; lia).
  pose proof (Qfloor_le (r * inject_Z n)) as Hle.
  pose proof (Qlt_floor (r * inject_Z n)) as Hlt.
  assert (Hlo : 0 <= r * inject_Z n) by (apply Qmult_le_0_compat; lra).
  assert (Hhi : r * inject_Z n < inject_Z n) by nra.
  split.
  - enough (0 < Qfloor (r * inject_Z n) + 1)%Z by lia.
    rewrite Zlt_Qlt; change (inject_Z 0) with 0; lra.
  - enough (Qfloor (r * inject_Z n) < n)%Z by lia.
    rewrite Zlt_Qlt; lra.
Qed.

Lemma inject_Z_le_mono (a b : Z) : (a <= b)%Z -> inject_Z a <= inject_Z b.
Proof. rewrite Zle_Qle; auto. Qed.

(** ** [arr[arr.length - 1]]

    Reading the last element of an array gives [undefined] on the empty
    array; [lastOpt] returns [None] there. *)

Fixpoint lastOpt {A : Type} (l : list A) : option A :=
  match l with
  | [] => None
  | [a] => Some a
  | _ :: l' => lastOpt l'
  end.

Lemma lastOpt_snoc {A : Type} (l : list A) (a : A) : lastOpt (l ++ [a]) = Some a.
Proof. induction l as [|b [|c l] IH]; auto. Qed.

Lemma lastOpt_In {A : Type} (l : list A) (a : A) : lastOpt l = Some a -> In a l.
Proof.
  induction l as [|b [|c l] IH]; simpl; try discriminate.
  - intros [= ->]; auto.
  - intros H; right; apply IH, H.
Qed.

Lemma lastOpt_cons {A : Type} (a : A) (l : list A) : lastOpt (a :: l) <> None.
Proof. revert a; induction l as [|b l IH]; intros a; [discriminate|exact (IH b)]. Qed.

#[export] Hint Resolve lastOpt_snoc lastOpt_In : game.

(** ** Ordered pairs of an array

    [ForallOrdPairs R l] states [R a b] for every [a] that comes before
    [b] in [l]; these lemmas follow it through the array operations of
    the frame loop: [push], [map] followed by [filter], and reading the
    last element. *)

Lemma ForallOrdPairs_snoc {A : Type} (R : A -> A -> Prop) (l : list A) (z : A) :
  ForallOrdPairs R l -> Forall (fun a => R a z) l -> ForallOrdPairs R (l ++ [z]).
Proof.
  induction 1 as [|a l Ha Hl IH]; simpl; intros F; [repeat constructor|].
  inversion F; subst; constructor; [apply Forall_app; split|]; auto.
Qed.

Lemma ForallOrdPairs_filter_map {A B : Type} (R : A -> A -> Prop) (R' : B -> B -> Prop)
    (f : A -> B) (p : B -> bool) (l : list A) :
  ForallOrdPairs R l ->
  (forall a b, In a l -> In b l -> R a b -> p (f a) = true -> p (f b) = true -> R' (f a) (f b)) ->
  ForallOrdPairs R' (filter p (map f l)).
Proof.
  induction 1 as [|a l Ha Hl IH]; intros K; simpl; [constructor|].
  destruct (p (f a)) eqn:Pa; [constructor|]; auto using in_cons.
  apply Forall_forall; intros b' Hb'; apply filter_In in Hb' as [Hb' Pb].
  apply in_map_iff in Hb' as (b & <- & Hb); rewrite Forall_forall in Ha.
  apply K; simpl; auto.
Qed.

Lemma ForallOrdPairs_lastOpt {A : Type} (R : A -> A -> Prop) (l : list A) (z a : A) :
  ForallOrdPairs R l -> lastOpt l = Some z -> In a l -> a = z \/ R a z.
Proof.
  induction 1 as [|b l Hb Hl IH]; [discriminate|].
  destruct l as [|c l]; simpl.
  - intros [= ->] [->|[]]; auto.
  - intros E [->|I]; [right|auto].
    rewrite Forall_forall in Hb; apply Hb, lastOpt_In, E.
Qed.

