(* ===== verification/Config.v ===== *)
(** * Game constants (src/index.tsx, lines 3-13)

    The numeric configuration of the game, as rationals in pixels and
    pixels per frame.  [GAME_HEIGHT] (line 4) is only read by drawing
    code (file [Render]). *)

From Stdlib Require Import QArith.
From S2P Require Import Prelude.

Open Scope Q_scope.

Definition GAME_WIDTH : Q := 800.
Definition GAME_HEIGHT : Q := 200.
Definition GROUND_Y : Q := 175.
Definition CAT_X : Q := 50.
Definition CAT_WIDTH : Q := 44.
Definition CAT_HEIGHT : Q := 40.
Definition CAT_CROUCH_HEIGHT : Q := 25.
Definition JUMP_FORCE : Q := 11.
Definition GRAVITY : Q := 0.6.

(** The constants are unfolded by [simpl] in the proofs that compute
    with them. *)
#[export] Hint Unfold GAME_WIDTH GROUND_Y CAT_X CAT_WIDTH CAT_HEIGHT
  CAT_CROUCH_HEIGHT JUMP_FORCE GRAVITY : game.

Ltac unfold_config :=
  unfold GAME_WIDTH, GROUND_Y, CAT_X, CAT_WIDTH, CAT_HEIGHT,
    CAT_CROUCH_HEIGHT, JUMP_FORCE, GRAVITY in *.
