(* ===== verification/Random.v ===== *)
(** * The random source

    The code draws every random number with [Math.random()], a global
    generator returning a double in [[0, 1)].  Here the generator is an
    explicit state threaded through the code that draws: a type class
    [RandomSource] gives the next draw and the next state, and
    [RandomSourceOk] states the range law every theorem relies on.
    [Rnd] is the state monad of computations that draw, with the
    notation [x <- m ;; k].  Two concrete sources make the definitions
    run: [Lcg], a linear congruential generator, and [Scripted], a list
    of prescribed draws (out-of-range entries are read as [0]). *)

From Stdlib Require Import QArith ZArith Lia Lqa List.
From S2P Require Import Prelude.
Import ListNotations.

Open Scope Q_scope.

Class RandomSource (G : Type) := random : G -> Q * G.

Class RandomSourceOk (G : Type) `{RandomSource G} :=
  random_range : forall g, 0 <= fst (random g) /\ fst (random g) < 1.

Definition Rnd (G A : Type) : Type := G -> A * G.

Definition rret {G A : Type} (a : A) : Rnd G A := fun g => (a, g).

Definition rbind {G A B : Type} (m : Rnd G A) (k : A -> Rnd G B) : Rnd G B :=
  fun g => let (a, g') := m g in k a g'.

Declare Scope rnd_scope.
Delimit Scope rnd_scope with rnd.
Notation "x <- m ;; k" := (rbind m (fun x => k))
  (at level 61, m at next level, right associativity) : rnd_scope.

(** One call of [Math.random()]. *)
Definition draw {G : Type} `{RandomSource G} : Rnd G Q := random.

Section Draws.
Context {G : Type} `{RandomSourceOk G}.

Lemma random_eq_range (g g' : G) (r : Q) :
  random g = (r, g') -> 0 <= r /\ r < 1.
Proof. intros E; pose proof (random_range g) as R; rewrite E in R; exact R. Qed.

Lemma rbind_eq {A B : Type} (m : Rnd G A) (k : A -> Rnd G B) (g : G) :
  rbind m k g = k (fst (m g)) (snd (m g)).
Proof. unfold rbind; destruct (m g); reflexivity. Qed.
End Draws.

#[export] Hint Resolve random_eq_range : game.

(** ** A linear congruential generator

    The ANSI C constants; the draw is the new state divided by 2^31. *)

Inductive Lcg : Type := MkLcg (s : Z).

Definition lcg_modulus : positive := 2147483648.

Definition lcg_next (s : Z) : Z := ((1103515245 * s + 12345) mod Zpos lcg_modulus)%Z.

#[export] Instance Lcg_source : RandomSource Lcg :=
  fun '(MkLcg s) => let s' := lcg_next s in (s' # lcg_modulus, MkLcg s').

#[export] Instance Lcg_source_ok : RandomSourceOk Lcg.
Proof.
  intros [s]; simpl.
  pose proof (Z.mod_pos_bound (1103515245 * s + 12345) (Zpos lcg_modulus) eq_refl).
  unfold Qle, Qlt; simpl; fold (lcg_next s) in *; unfold lcg_next in *; lia.
Qed.

(** ** A scripted source

    Draws are taken from a list; an entry outside [[0, 1)] and the
    exhausted list both read as [0], so the law holds for every list. *)

Inductive Scripted : Type := Script (draws : list Q).

#[export] Instance Scripted_source : RandomSource Scripted :=
  fun '(Script ds) =>
    match ds with
    | [] => (0, Script [])
    | r :: rs => (if (0 <=? r) && (r <? 1) then r else 0, Script rs)
    end.

#[export] Instance Scripted_source_ok : RandomSourceOk Scripted.
Proof.
  intros [[|r rs]]; simpl; [lra|].
  destruct (Qle_bool_spec 0 r), (Qltb_spec r 1); simpl; lra.
Qed.
