(* ===== verification/Input.v ===== *)
(** * Input flags (src/index.tsx, lines 31-35, 343-368)

    The global [keys] object holds one flag per watched key code; the
    [keydown] listener sets the flag of the pressed key, the [keyup]
    listener clears it.  Key codes are the strings of [KeyboardEvent.code].
    The start/restart part of the [keydown] listener changes the session
    and is modelled in file [Game]. *)

From Stdlib Require Import String Bool.
From S2P Require Import Prelude.

Open Scope string_scope.

Record Keys : Type := mkKeys {
  Space : bool;
  ArrowUp : bool;
  ArrowDown : bool
}.

(** [const keys = { Space: false, ArrowUp: false, ArrowDown: false }] *)
Definition keys0 : Keys := mkKeys false false false.

(** The three [if (e.code === ...) keys[...] = b] lines shared by both
    listeners. *)
Definition setKeys (code : string) (b : bool) (k : Keys) : Keys :=
  mkKeys (if String.eqb code "Space" then b else Space k)
         (if String.eqb code "ArrowUp" then b else ArrowUp k)
         (if String.eqb code "ArrowDown" then b else ArrowDown k).

(** The [keyup] listener. *)
Definition keyup (code : string) (k : Keys) : Keys := setKeys code false k.

(** [keys['Space'] || keys['ArrowUp']], the jump request read by the cat. *)
Definition jumpHeld (k : Keys) : bool := Space k || ArrowUp k.

(** The codes that start or restart the game. *)
Definition isStartCode (code : string) : bool :=
  String.eqb code "Space" || String.eqb code "ArrowUp".
