(* ===== verification/Cat.v ===== *)
(** * The cat (src/index.tsx, [class Cat], lines 37-90)

    The player's state and its per-frame [update]: the crouch block
    re-sizes the cat and re-anchors it on the ground when grounded, the
    jump block starts a jump from the ground, and the physics block moves
    the cat by its vertical speed, then either accelerates it by gravity
    or clamps it to the ground.  [update] is the composition of the three
    blocks in the order of the source.

    [Cat_wf] is the geometric invariant of the spec (section 3): the cat
    never sinks below the ground, it is grounded exactly when its feet are
    on the ground line, its height is fixed by the crouching flag, and it
    never moves horizontally.  [update] re-establishes it on every frame
    whatever state it starts from. *)

From Stdlib Require Import QArith Lqa Bool List ZArith Lia.
Import ListNotations.
From S2P Require Import Prelude Config Input.

Open Scope Q_scope.
Open Scope game_scope.

Module Cat.

Record Cat : Type := mkCat {
  x : Q;
  y : Q;
  w : Q;
  h : Q;
  dy : Q;
  isGrounded : bool;
  isCrouching : bool
}.

(** [constructor()] *)
Definition new_Cat : Cat :=
  mkCat CAT_X (GROUND_Y - CAT_HEIGHT) CAT_WIDTH CAT_HEIGHT 0 true false.

(** Crouch logic: the height follows [keys['ArrowDown']]; a grounded cat
    is re-anchored so that its feet stay on the ground line. *)
Definition crouch (k : Keys) (c : Cat) : Cat :=
  if ArrowDown k then
    mkCat (x c) (if isGrounded c then GROUND_Y - CAT_CROUCH_HEIGHT else y c)
          (w c) CAT_CROUCH_HEIGHT (dy c) (isGrounded c) true
  else
    mkCat (x c) (if isGrounded c then GROUND_Y - CAT_HEIGHT else y c)
          (w c) CAT_HEIGHT (dy c) (isGrounded c) false.

(** Jump logic: only a grounded cat starts a jump. *)
Definition jump (k : Keys) (c : Cat) : Cat :=
  if jumpHeld k && isGrounded c then
    mkCat (x c) (y c) (w c) (h c) (- JUMP_FORCE) false (isCrouching c)
  else c.

(** Physics: move, then accelerate while airborne or clamp to the
    ground. *)
Definition physics (c : Cat) : Cat :=
  let y1 := y c + dy c in
  if y1 + h c <? GROUND_Y then
    mkCat (x c) y1 (w c) (h c) (dy c + GRAVITY) false (isCrouching c)
  else
    mkCat (x c) (GROUND_Y - h c) (w c) (h c) 0 true (isCrouching c).

(** [update()] *)
Definition update (k : Keys) (c : Cat) : Cat := physics (jump k (crouch k c)).

(** ** The invariant *)

Definition heightOf (crouching : bool) : Q :=
  if crouching then CAT_CROUCH_HEIGHT else CAT_HEIGHT.

Record Cat_wf (c : Cat) : Prop := {
  wf_x : x c == CAT_X;
  wf_w : w c == CAT_WIDTH;
  wf_h : h c == heightOf (isCrouching c);
  wf_ground : y c + h c <= GROUND_Y;
  wf_grounded : isGrounded c = true <-> y c + h c == GROUND_Y;
  wf_rest : isGrounded c = true -> dy c == 0
}.

(** The invariant as a boolean test, for concrete states. *)
Definition Cat_wfb (c : Cat) : bool :=
  Qeq_bool (x c) CAT_X && Qeq_bool (w c) CAT_WIDTH &&
  Qeq_bool (h c) (heightOf (isCrouching c)) &&
  (y c + h c <=? GROUND_Y) &&
  Bool.eqb (isGrounded c) (Qeq_bool (y c + h c) GROUND_Y) &&
  (negb (isGrounded c) || Qeq_bool (dy c) 0).

Lemma Cat_wfb_iff (c : Cat) : Cat_wfb c = true <-> Cat_wf c.
Proof.
  unfold Cat_wfb; rewrite !andb_true_iff, orb_true_iff, negb_true_iff,
    !Qeq_bool_iff, Qle_bool_iff, eqb_true_iff.
  split.
  - intros (((((X & W) & H) & G) & E) & R); constructor; auto.
    + rewrite E; apply Qeq_bool_iff.
    + intros T; destruct R as [R|R]; congruence.
  - intros [X W H G E R]; repeat split; auto.
    + destruct (Qeq_bool (y c + h c) GROUND_Y) eqn:EQ.
      * apply E, Qeq_bool_eq, EQ.
      * destruct (isGrounded c) eqn:T; auto.
        apply Qeq_bool_neq in EQ; tauto.
    + destruct (isGrounded c); auto.
Qed.

(** ** Lemmas on the blocks *)

Lemma crouch_fields (k : Keys) (c : Cat) :
  x (crouch k c) = x c /\ w (crouch k c) = w c /\ dy (crouch k c) = dy c /\
  isGrounded (crouch k c) = isGrounded c /\
  isCrouching (crouch k c) = ArrowDown k /\
  h (crouch k c) = heightOf (ArrowDown k).
Proof. unfold crouch; destruct (ArrowDown k); simpl; auto 7. Qed.

Lemma jump_fields (k : Keys) (c : Cat) :
  x (jump k c) = x c /\ w (jump k c) = w c /\ h (jump k c) = h c /\
  y (jump k c) = y c /\ isCrouching (jump k c) = isCrouching c.
Proof. unfold jump; destruct (jumpHeld k && isGrounded c); simpl; auto. Qed.

(** Physics alone establishes the vertical part of the invariant. *)
Lemma physics_ground (c : Cat) :
  let c' := physics c in
  x c' = x c /\ w c' = w c /\ h c' = h c /\ isCrouching c' = isCrouching c /\
  y c' + h c' <= GROUND_Y /\
  (isGrounded c' = true <-> y c' + h c' == GROUND_Y) /\
  (isGrounded c' = true -> dy c' == 0).
Proof.
  unfold physics; qcase; simpl; qsolve; intros; try discriminate; try lra.
Qed.

Lemma update_establishes_wf (k : Keys) (c : Cat) :
  x c == CAT_X -> w c == CAT_WIDTH -> Cat_wf (update k c).
Proof.
  intros Hx Hw; unfold update.
  destruct (crouch_fields k c) as (Cx & Cw & _ & _ & Cc & Ch).
  destruct (jump_fields k (crouch k c)) as (Jx & Jw & Jh & _ & Jc).
  destruct (physics_ground (jump k (crouch k c))) as (Px & Pw & Ph & Pc & G1 & G2 & G3).
  constructor; auto.
  - rewrite Px, Jx, Cx; exact Hx.
  - rewrite Pw, Jw, Cw; exact Hw.
  - rewrite Ph, Pc, Jh, Jc, Ch, Cc; reflexivity.
Qed.

(** One airborne frame: the position moves by the speed, gravity adds
    to the speed. *)
Lemma update_airborne_step (k : Keys) (c : Cat) :
  isGrounded c = false -> isGrounded (update k c) = false ->
  y (update k c) == y c + dy c /\ dy (update k c) == dy c + GRAVITY.
Proof.
  intros G G'; revert G'; unfold update, physics, jump, crouch.
  destruct (ArrowDown k); simpl; rewrite G, andb_false_r; simpl; qcase; simpl;
    intros; try discriminate; split; reflexivity.
Qed.

(** The trajectory of the cat over a sequence of frames, one key state
    per frame. *)
Fixpoint run (ks : list Keys) (c : Cat) : list Cat :=
  match ks with
  | [] => []
  | k :: ks' => let c' := update k c in c' :: run ks' c'
  end.

Fixpoint iter (ks : list Keys) (c : Cat) : Cat :=
  match ks with
  | [] => c
  | k :: ks' => iter ks' (update k c)
  end.

Lemma iter_wf (ks : list Keys) (c : Cat) : Cat_wf c -> Cat_wf (iter ks c).
Proof.
  revert c; induction ks as [|k ks IH]; intros c W; simpl; auto.
  apply IH, update_establishes_wf; [apply (wf_x _ W) | apply (wf_w _ W)].
Qed.

(** While the cat stays in the air, its height follows the closed form
    of constant acceleration: after [n] frames it has moved by
    [n * dy + GRAVITY * n * (n - 1) / 2]. *)
Lemma iter_airborne (ks : list Keys) (c : Cat) :
  isGrounded c = false ->
  Forall (fun c' => isGrounded c' = false) (run ks c) ->
  let n := inject_Z (Z.of_nat (length ks)) in
  y (iter ks c) == y c + n * dy c + GRAVITY * n * (n - 1) * (1 # 2) /\
  dy (iter ks c) == dy c + GRAVITY * n.
Proof.
  revert c; induction ks as [|k ks IH]; intros c G F; cbv zeta; cbn [iter run length].
  - split; ring.
  - inversion F as [|? ? G1 F1]; subst.
    destruct (update_airborne_step k c G G1) as [Y D].
    destruct (IH _ G1 F1) as [Y' D'].
    rewrite Nat2Z.inj_succ, <- Z.add_1_r, inject_Z_plus.
    rewrite Y', D', Y, D; unfold GRAVITY; split; ring.
Qed.

Lemma run_prefix (ks ks' : list Keys) (c : Cat) :
  run (ks ++ ks') c = run ks c ++ run ks' (iter ks c).
Proof. revert c; induction ks as [|k ks IH]; intros c; simpl; [|rewrite IH]; reflexivity. Qed.

(** ** Properties of the cat *)

Lemma new_Cat_wf : Cat_wf new_Cat.
Proof. apply Cat_wfb_iff; vm_compute; reflexivity. Qed.

#[export] Hint Resolve new_Cat_wf : game.

(** C4: Every frame preserves the cat's invariant: if the cat is on or
    above the ground with its height given by its crouching flag and its
    grounded flag true exactly when its feet touch the ground line, then
    after [update] (whatever keys are held) the same holds. *)
Theorem update_wf (k : Keys) (c : Cat) : Cat_wf c -> Cat_wf (update k c).
Proof. intros W; apply update_establishes_wf; [apply (wf_x _ W) | apply (wf_w _ W)]. Qed.

Lemma update_wf_witness : Cat_wf (update (mkKeys true false true) new_Cat).
Proof. apply update_wf; apply Cat_wfb_iff; vm_compute; reflexivity. Defined.

(** C12: A grounded cat whose jump key is held leaves the ground on
    that same frame: it is no longer grounded, its feet are [JUMP_FORCE]
    above the ground line, and its speed is already [-JUMP_FORCE + GRAVITY]
    because gravity is applied in the same [update].  When the crouch key
    is unchanged, its top [y] strictly decreases. *)
Theorem update_jump (k : Keys) (c : Cat) :
  isGrounded c = true -> jumpHeld k = true ->
  let c' := update k c in
  isGrounded c' = false /\ dy c' == GRAVITY - JUMP_FORCE /\
  y c' + h c' == GROUND_Y - JUMP_FORCE /\ isCrouching c' = ArrowDown k /\
  (Cat_wf c -> ArrowDown k = isCrouching c -> y c' < y c).
Proof.
  intros G J; cbv zeta; unfold update, physics, jump, crouch.
  destruct (ArrowDown k) eqn:D; simpl; rewrite G, J; simpl; unfold_config;
    repeat split; try reflexivity; try lra; intros W E; pose proof (wf_h _ W) as H; pose proof (proj1 (wf_grounded _ W) G);
    rewrite <- E in H; simpl in H; unfold_config; lra.
Qed.

Lemma update_jump_witness :
  isGrounded new_Cat = true /\ jumpHeld (mkKeys true false false) = true /\
  y (update (mkKeys true false false) new_Cat) < y new_Cat.
Proof.
  split; [reflexivity|]; split; [reflexivity|].
  apply (update_jump (mkKeys true false false) new_Cat eq_refl eq_refl); auto with game.
Defined.

(** C16: Once airborne, the jump keys have no effect until the cat is
    grounded again: two key states that agree on the crouch key give the
    same [update]. *)
Theorem jump_ignored_airborne (k k' : Keys) (c : Cat) :
  isGrounded c = false -> ArrowDown k = ArrowDown k' -> update k c = update k' c.
Proof.
  intros G D; unfold update, jump.
  assert (C : crouch k c = crouch k' c) by (unfold crouch; rewrite D; reflexivity).
  rewrite C; destruct (crouch_fields k' c) as (_ & _ & _ & -> & _).
  rewrite G, !andb_false_r; reflexivity.
Qed.

Lemma jump_ignored_airborne_witness :
  let c := mkCat CAT_X 60 CAT_WIDTH CAT_HEIGHT (-5) false false in
  isGrounded c = false /\
  update (mkKeys true true false) c = update keys0 c.
Proof. split; [reflexivity | apply jump_ignored_airborne; reflexivity]. Defined.

(** C22: Crouching in the air changes the hitbox at once: an airborne
    cat that holds the crouch key and stays airborne has height
    [CAT_CROUCH_HEIGHT] after [update], with its top [y] moved by its
    speed only, so its feet rise by the height difference. *)
Theorem crouch_in_air_shrinks (k : Keys) (c : Cat) :
  isGrounded c = false -> ArrowDown k = true ->
  y c + dy c + CAT_CROUCH_HEIGHT < GROUND_Y ->
  let c' := update k c in
  h c' = CAT_CROUCH_HEIGHT /\ isCrouching c' = true /\
  y c' = y c + dy c /\ isGrounded c' = false.
Proof.
  intros G D Y; cbv zeta; unfold update, physics, jump, crouch.
  rewrite D, G; simpl; rewrite andb_false_r; simpl; qcase; simpl; auto; lra.
Qed.

Lemma crouch_in_air_shrinks_witness :
  let c := mkCat CAT_X 50 CAT_WIDTH CAT_HEIGHT (-5) false false in
  h (update (mkKeys false false true) c) = CAT_CROUCH_HEIGHT.
Proof.
  apply (crouch_in_air_shrinks (mkKeys false false true)
           (mkCat CAT_X 50 CAT_WIDTH CAT_HEIGHT (-5) false false));
    [reflexivity | reflexivity | vm_compute; reflexivity].
Defined.

Lemma wf_h_range (c : Cat) : Cat_wf c -> CAT_CROUCH_HEIGHT <= h c <= CAT_HEIGHT.
Proof.
  intros W; pose proof (wf_h _ W) as H; unfold heightOf in H;
    destruct (isCrouching c); rewrite H; unfold_config; lra.
Qed.

Lemma wf_airborne (c : Cat) : Cat_wf c -> isGrounded c = false -> y c + h c < GROUND_Y.
Proof.
  intros W G; pose proof (wf_ground _ W); pose proof (wf_grounded _ W).
  destruct (Qle_lt_or_eq _ _ (wf_ground _ W)) as [L|E]; auto.
  apply (wf_grounded _ W) in E; congruence.
Qed.

Lemma iter_in_run (ks : list Keys) (c : Cat) : ks <> [] -> In (iter ks c) (run ks c).
Proof.
  revert c; induction ks as [|k [|k' ks] IH]; intros c N; [congruence| simpl; auto |].
  right; apply IH; discriminate.
Qed.

(** C8: Every jump ends: an airborne cat that satisfies the invariant,
    whose feet are on screen ([0 <= y + h]) and whose upward speed is at
    most [JUMP_FORCE], is grounded again within 60 frames, whatever keys
    are held during those frames. *)
Theorem airborne_lands (ks : list Keys) (c : Cat) :
  Cat_wf c -> isGrounded c = false -> - JUMP_FORCE <= dy c -> 0 <= y c + h c ->
  (60 <= length ks)%nat ->
  existsb isGrounded (run ks c) = true.
Proof.
  intros W G D Y L.
  destruct (existsb isGrounded (run ks c)) eqn:E; auto; exfalso.
  assert (F : Forall (fun c' => isGrounded c' = false) (run ks c)).
  { apply Forall_forall; intros c' I.
    destruct (isGrounded c') eqn:G'; auto.
    assert (existsb isGrounded (run ks c) = true) by (apply existsb_exists; eauto).
    congruence. }
  rewrite <- (firstn_skipn 60 ks), run_prefix in F.
  apply Forall_app in F as [F _].
  set (ks1 := firstn 60 ks) in F.
  assert (L1 : length ks1 = 60%nat) by (unfold ks1; rewrite length_firstn; lia).
  destruct (iter_airborne ks1 c G F) as [Y1 _]; rewrite L1 in Y1.
  assert (N : ks1 <> []) by (intros E1; rewrite E1 in L1; discriminate).
  pose proof (iter_in_run ks1 c N) as I.
  rewrite Forall_forall in F; specialize (F _ I).
  pose proof (wf_airborne _ (iter_wf ks1 c W) F) as A.
  pose proof (wf_h_range _ (iter_wf ks1 c W)); pose proof (wf_h_range _ W).
  revert A; rewrite Y1; unfold_config; simpl; unfold inject_Z; lra.
Qed.

Lemma airborne_lands_witness :
  let c := update (mkKeys true false false) new_Cat in
  existsb isGrounded (run (repeat keys0 60) c) = true.
Proof.
  apply airborne_lands; try (vm_compute; reflexivity).
  - apply Cat_wfb_iff; vm_compute; reflexivity.
  - vm_compute; discriminate.
  - vm_compute; discriminate.
Defined.

End Cat.
