(* ===== verification/Obstacle.v ===== *)
(** * Obstacles (src/index.tsx, [class Obstacle], lines 15-16, 155-216)

    An obstacle is a cactus cluster, a trash-can cluster or a bird.  Its
    constructor draws its geometry from the random source in the order of
    the source (cluster size first, then height; one draw for a bird's
    altitude); [update] scrolls it left by the game speed, 1.2 times
    faster for birds, and marks it for deletion once its right edge has
    left the field.  The [default] branch of the constructor's [switch]
    is unreachable: [ObstacleType] is a closed union of three strings.

    [geometry_ok] is the per-type range of section 4.2 of the spec, as a
    boolean test; the constructor establishes it for every random source
    that obeys the range law, and [update] keeps it. *)

From Stdlib Require Import QArith Qround Lqa ZArith Lia Bool.
From S2P Require Import Prelude Config Random.

Open Scope Q_scope.
Open Scope game_scope.

Module Obstacle.

Inductive ObstacleType : Type := CACTUS | TRASH_CAN | BIRD.

Definition ObstacleType_eq_dec (a b : ObstacleType) : {a = b} + {a <> b}.
Proof. decide equality. Defined.

Record Obstacle : Type := mkObstacle {
  x : Q;
  y : Q;
  w : Q;
  h : Q;
  type : ObstacleType;
  markedForDeletion : bool;
  groupSize : Z
}.

Section Construct.
Context {G : Type} `{RandomSource G}.
Local Open Scope rnd_scope.

(** [constructor(x, type)]: the [switch] on the type. *)
Definition new_Obstacle (x0 : Q) (ty : ObstacleType) : Rnd G Obstacle :=
  match ty with
  | CACTUS =>
      r1 <- draw ;;
      let gs := (Qfloor (r1 * 3) + 1)%Z in
      r2 <- draw ;;
      let hh := 35 + r2 * 20 in
      rret (mkObstacle x0 (GROUND_Y - hh) (20 * inject_Z gs) hh CACTUS false gs)
  | TRASH_CAN =>
      r1 <- draw ;;
      let gs := (Qfloor (r1 * 2) + 1)%Z in
      r2 <- draw ;;
      let hh := 30 + r2 * 10 in
      rret (mkObstacle x0 (GROUND_Y - hh) (30 * inject_Z gs) hh TRASH_CAN false gs)
  | BIRD =>
      r <- draw ;;
      rret (mkObstacle x0 (GROUND_Y - 50 - r * 20) 40 25 BIRD false 1)
  end.
End Construct.

(** [const speedMultiplier = this.type === 'BIRD' ? 1.2 : 1.0] *)
Definition speedMultiplier (ty : ObstacleType) : Q :=
  match ty with BIRD => 1.2 | _ => 1.0 end.

(** [update()], reading the global [gameSpeed]. *)
Definition update (gameSpeed : Q) (o : Obstacle) : Obstacle :=
  let x' := x o - gameSpeed * speedMultiplier (type o) in
  mkObstacle x' (y o) (w o) (h o) (type o)
    (if x' + w o <? 0 then true else markedForDeletion o) (groupSize o).

(** ** Per-type geometry *)

Definition geometry_ok (o : Obstacle) : bool :=
  match type o with
  | CACTUS =>
      (1 <=? groupSize o)%Z && (groupSize o <=? 3)%Z &&
      Qeq_bool (w o) (20 * inject_Z (groupSize o)) &&
      (35 <=? h o) && (h o <? 55) && Qeq_bool (y o + h o) GROUND_Y
  | TRASH_CAN =>
      (1 <=? groupSize o)%Z && (groupSize o <=? 2)%Z &&
      Qeq_bool (w o) (30 * inject_Z (groupSize o)) &&
      (30 <=? h o) && (h o <? 40) && Qeq_bool (y o + h o) GROUND_Y
  | BIRD =>
      (groupSize o =? 1)%Z && Qeq_bool (w o) 40 && Qeq_bool (h o) 25 &&
      (GROUND_Y - 70 <? y o) && (y o <=? GROUND_Y - 50)
  end.

(** The ranges read as propositions. *)
Definition Geometry (o : Obstacle) : Prop :=
  match type o with
  | CACTUS =>
      (1 <= groupSize o <= 3)%Z /\ w o == 20 * inject_Z (groupSize o) /\
      35 <= h o /\ h o < 55 /\ y o + h o == GROUND_Y
  | TRASH_CAN =>
      (1 <= groupSize o <= 2)%Z /\ w o == 30 * inject_Z (groupSize o) /\
      30 <= h o /\ h o < 40 /\ y o + h o == GROUND_Y
  | BIRD =>
      groupSize o = 1%Z /\ w o == 40 /\ h o == 25 /\
      GROUND_Y - 70 < y o /\ y o <= GROUND_Y - 50
  end.

Lemma geometry_ok_iff (o : Obstacle) : geometry_ok o = true <-> Geometry o.
Proof.
  unfold geometry_ok, Geometry; destruct (type o);
    rewrite ?andb_true_iff, ?Z.leb_le, ?Z.eqb_eq, ?Qeq_bool_iff, ?Qle_bool_iff,
      ?Qltb_iff; tauto.
Qed.

Lemma update_fields (s : Q) (o : Obstacle) :
  y (update s o) = y o /\ w (update s o) = w o /\ h (update s o) = h o /\
  type (update s o) = type o /\ groupSize (update s o) = groupSize o /\
  x (update s o) = x o - s * speedMultiplier (type o).
Proof. repeat split. Qed.

Lemma update_geometry (s : Q) (o : Obstacle) :
  geometry_ok (update s o) = geometry_ok o.
Proof. reflexivity. Qed.

(** An obstacle is marked by [update] exactly when its new right edge is
    left of the field, or when it was marked already. *)
Lemma update_marked (s : Q) (o : Obstacle) :
  markedForDeletion (update s o) = true <->
  x (update s o) + w o < 0 \/ markedForDeletion o = true.
Proof.
  unfold update; simpl; qcase; simpl; split; intros; auto.
  destruct H0; auto; lra.
Qed.

(** ** Geometry of new obstacles *)

Section Geometry.
Context {G : Type} `{RandomSourceOk G}.

Lemma new_Obstacle_ok (x0 : Q) (ty : ObstacleType) (g : G) :
  let o := fst (new_Obstacle x0 ty g) in
  geometry_ok o = true /\ x o = x0 /\ type o = ty /\ markedForDeletion o = false.
Proof.
  cbv zeta; destruct ty; unfold new_Obstacle, rbind, rret, draw;
    destruct (random g) as [r1 g1] eqn:E1; apply random_eq_range in E1;
    [destruct (random g1) as [r2 g2] eqn:E2; apply random_eq_range in E2 ..|];
    simpl; (split; [apply geometry_ok_iff; unfold Geometry; simpl | auto]).
  - pose proof (floor_draw_bounds r1 3 (proj1 E1) (proj2 E1) eq_refl) as F.
    change (inject_Z 3) with 3 in F.
    unfold_config; repeat split; try lia; try reflexivity; lra.
  - pose proof (floor_draw_bounds r1 2 (proj1 E1) (proj2 E1) eq_refl) as F.
    change (inject_Z 2) with 2 in F.
    unfold_config; repeat split; try lia; try reflexivity; lra.
  - unfold_config; repeat split; try reflexivity; lra.
Qed.

(** C9: Every obstacle the constructor builds has the geometry of its
    type, for every random source whose draws lie in [[0, 1)]: a cactus
    cluster has 1 to 3 members, width [20] per member and a height in
    [[35, 55)], standing on the ground; a trash-can cluster has 1 or 2
    members, width [30] per member and a height in [[30, 40)], on the
    ground; a bird is [40 x 25] with its top in [(105, 125]] (the spec
    writes [[105, 125)]: the draw [0] gives [125]).  The obstacle starts
    at the given [x], with the given type, not marked for deletion. *)
Theorem new_Obstacle_geometry (x0 : Q) (ty : ObstacleType) (g : G) :
  let o := fst (new_Obstacle x0 ty g) in
  geometry_ok o = true /\ x o = x0 /\ type o = ty /\ markedForDeletion o = false.
Proof. apply new_Obstacle_ok. Qed.
End Geometry.

Lemma new_Obstacle_geometry_witness :
  geometry_ok (fst (new_Obstacle 800 CACTUS (MkLcg 42))) = true.
Proof. apply (new_Obstacle_geometry 800 CACTUS (MkLcg 42)). Defined.

End Obstacle.
