(* ===== verification/Collision.v ===== *)
(** * Collision detection (src/index.tsx, [checkCollision], lines 370-382)

    [checkCollision] compares the cat and an obstacle with four strict
    inequalities, each box shrunk by a fairness margin (5 for the cat, 4
    for the obstacle).  The abstract contract is geometric: both objects
    expose an axis-aligned box through the class [HasBox], and two boxes
    collide when some point lies strictly inside both of them after
    shrinking.  [checkCollision_spec] proves that the four inequalities
    decide exactly that, for boxes of the sizes the game produces; the
    remaining theorems read consequences off the contract: boxes whose
    interiors are disjoint never collide, and what a bird can hit. *)

From Stdlib Require Import QArith Lqa Bool.
From S2P Require Import Prelude Config Input Cat Obstacle.

Open Scope Q_scope.
Open Scope game_scope.

(** ** Boxes and the collision contract *)

Record Box : Type := mkBox { left : Q; top : Q; width : Q; height : Q }.

Class HasBox (A : Type) := box : A -> Box.

#[export] Instance Cat_box : HasBox Cat.Cat :=
  fun c => mkBox (Cat.x c) (Cat.y c) (Cat.w c) (Cat.h c).

#[export] Instance Obstacle_box : HasBox Obstacle.Obstacle :=
  fun o => mkBox (Obstacle.x o) (Obstacle.y o) (Obstacle.w o) (Obstacle.h o).

(** A point strictly inside a box. *)
Definition inside (b : Box) (px py : Q) : Prop :=
  left b < px < left b + width b /\ top b < py < top b + height b.

Definition shrink (m : Q) (b : Box) : Box :=
  mkBox (left b + m) (top b + m) (width b - 2 * m) (height b - 2 * m).

Definition collides {A B : Type} `{HasBox A} `{HasBox B}
    (ma mb : Q) (a : A) (b : B) : Prop :=
  exists px py, inside (shrink ma (box a)) px py /\ inside (shrink mb (box b)) px py.

(** [checkCollision(cat, obstacle)] *)
Definition checkCollision (cat : Cat.Cat) (obstacle : Obstacle.Obstacle) : bool :=
  let catMargin := 5 in
  let obsMargin := 4 in
  (Cat.x cat + catMargin <? Obstacle.x obstacle + Obstacle.w obstacle - obsMargin) &&
  (Obstacle.x obstacle + obsMargin <? Cat.x cat + Cat.w cat - catMargin) &&
  (Cat.y cat + catMargin <? Obstacle.y obstacle + Obstacle.h obstacle - obsMargin) &&
  (Obstacle.y obstacle + obsMargin <? Cat.y cat + Cat.h cat - catMargin).

(** ** One dimension *)

(** Two non-empty open intervals share a point exactly when each starts
    before the other ends. *)
Lemma interval_overlap (a1 b1 a2 b2 : Q) :
  a1 < b1 -> a2 < b2 ->
  (a1 < b2 /\ a2 < b1 <-> exists p, a1 < p < b1 /\ a2 < p < b2).
Proof.
  intros I1 I2; split.
  - intros [L R].
    destruct (Qlt_le_dec a1 a2), (Qlt_le_dec b1 b2).
    + exists ((a2 + b1) * (1 # 2)); qsolve.
    + exists ((a2 + b2) * (1 # 2)); qsolve.
    + exists ((a1 + b1) * (1 # 2)); qsolve.
    + exists ((a1 + b2) * (1 # 2)); qsolve.
  - intros (p & [] & []); split; lra.
Qed.

Lemma cat_box_size (c : Cat.Cat) : Cat.Cat_wf c -> 10 < Cat.w c /\ 10 < Cat.h c.
Proof.
  intros W; pose proof (Cat.wf_w _ W); pose proof (Cat.wf_h_range _ W).
  unfold_config; split; lra.
Qed.

Lemma obstacle_box_size (o : Obstacle.Obstacle) :
  Obstacle.geometry_ok o = true -> 8 < Obstacle.w o /\ 8 < Obstacle.h o.
Proof.
  rewrite Obstacle.geometry_ok_iff; unfold Obstacle.Geometry.
  destruct (Obstacle.type o); intros Gm.
  - destruct Gm as ([L _] & W & H & _); apply inject_Z_le_mono in L.
    change (inject_Z 1) with 1 in L; split; lra.
  - destruct Gm as ([L _] & W & H & _); apply inject_Z_le_mono in L.
    change (inject_Z 1) with 1 in L; split; lra.
  - destruct Gm as (_ & W & H & _); split; lra.
Qed.

(** ** The contract *)

Lemma checkCollision_common_point (c : Cat.Cat) (o : Obstacle.Obstacle) :
  Cat.Cat_wf c -> Obstacle.geometry_ok o = true ->
  checkCollision c o = true <-> collides 5 4 c o.
Proof.
  intros W Gm; pose proof (cat_box_size c W); pose proof (obstacle_box_size o Gm).
  unfold checkCollision, collides, inside, shrink, box, Cat_box, Obstacle_box; simpl.
  rewrite !andb_true_iff, !Qltb_iff; split.
  - intros (((X1 & X2) & Y1) & Y2).
    destruct (proj1 (interval_overlap (Cat.x c + 5) (Cat.x c + 5 + (Cat.w c - 2 * 5))
      (Obstacle.x o + 4) (Obstacle.x o + 4 + (Obstacle.w o - 2 * 4))
      ltac:(lra) ltac:(lra)) ltac:(split; lra)) as (px & P1 & P2).
    destruct (proj1 (interval_overlap (Cat.y c + 5) (Cat.y c + 5 + (Cat.h c - 2 * 5))
      (Obstacle.y o + 4) (Obstacle.y o + 4 + (Obstacle.h o - 2 * 4))
      ltac:(lra) ltac:(lra)) ltac:(split; lra)) as (py & Q1 & Q2).
    exists px, py; tauto.
  - intros (px & py & ([] & []) & ([] & [])); repeat split; lra.
Qed.

(** C5: [checkCollision] decides the geometric contract: for a cat
    that satisfies its invariant and an obstacle with the geometry of its
    type, the four inequalities hold exactly when some point lies strictly
    inside both boxes after the cat's box is shrunk by 5 and the
    obstacle's by 4 on every side. *)
Theorem checkCollision_spec (c : Cat.Cat) (o : Obstacle.Obstacle) :
  Cat.Cat_wf c -> Obstacle.geometry_ok o = true ->
  checkCollision c o = true <-> collides 5 4 c o.
Proof. apply checkCollision_common_point. Qed.

Lemma checkCollision_spec_witness :
  let c := Cat.new_Cat in
  let o := Obstacle.mkObstacle 60 140 20 35 Obstacle.CACTUS false 1 in
  Cat.Cat_wf c /\ Obstacle.geometry_ok o = true /\ collides 5 4 c o.
Proof.
  split; [apply Cat.new_Cat_wf|]; split; [vm_compute; reflexivity|].
  apply checkCollision_spec; [apply Cat.new_Cat_wf | vm_compute; reflexivity ..].
Defined.

Lemma inside_shrink (m : Q) (b : Box) (px py : Q) :
  0 <= m -> inside (shrink m b) px py -> inside b px py.
Proof. unfold inside, shrink; simpl; intros M ([] & []); repeat split; lra. Qed.

(** C19: The margins only ever make the test more lenient: a cat and an
    obstacle whose unshrunk boxes share no interior point (in particular
    boxes that merely touch) never register a collision. *)
Theorem disjoint_no_collision (c : Cat.Cat) (o : Obstacle.Obstacle) :
  Cat.Cat_wf c -> Obstacle.geometry_ok o = true ->
  (forall px py, ~ (inside (box c) px py /\ inside (box o) px py)) ->
  checkCollision c o = false.
Proof.
  intros W Gm D; destruct (checkCollision c o) eqn:E; auto.
  apply (checkCollision_common_point c o W Gm) in E as (px & py & I1 & I2).
  exfalso; apply (D px py); split; eapply inside_shrink; eauto; lra.
Qed.

Lemma disjoint_no_collision_witness :
  let o := Obstacle.mkObstacle (CAT_X + CAT_WIDTH) 140 20 35 Obstacle.CACTUS false 1 in
  checkCollision Cat.new_Cat o = false.
Proof.
  apply disjoint_no_collision; [apply Cat.new_Cat_wf | vm_compute; reflexivity |].
  unfold inside; simpl; unfold_config; intros px py ((? & ?) & (? & ?)); lra.
Defined.

(** The vertical half of the test fails when the obstacle's shrunk box
    ends above the cat's. *)
Lemma checkCollision_above (c : Cat.Cat) (o : Obstacle.Obstacle) :
  Obstacle.y o + Obstacle.h o - 4 <= Cat.y c + 5 -> checkCollision c o = false.
Proof.
  intros A; unfold checkCollision.
  replace (Cat.y c + 5 <? Obstacle.y o + Obstacle.h o - 4) with false
    by (symmetry; apply Qltb_false_iff; exact A).
  rewrite andb_false_r; reflexivity.
Qed.

Lemma grounded_cat_top (c : Cat.Cat) :
  Cat.Cat_wf c -> Cat.isGrounded c = true ->
  Cat.y c == GROUND_Y - Cat.heightOf (Cat.isCrouching c) /\
  Cat.h c == Cat.heightOf (Cat.isCrouching c).
Proof.
  intros W G; pose proof (proj1 (Cat.wf_grounded _ W) G); pose proof (Cat.wf_h _ W).
  split; [lra | auto].
Qed.

(** C17: Crouching always clears a bird: a grounded crouching cat never
    collides with an obstacle that has the geometry of a bird, wherever
    the bird is horizontally. *)
Theorem crouched_cat_misses_birds (c : Cat.Cat) (o : Obstacle.Obstacle) :
  Cat.Cat_wf c -> Cat.isGrounded c = true -> Cat.isCrouching c = true ->
  Obstacle.type o = Obstacle.BIRD -> Obstacle.geometry_ok o = true ->
  checkCollision c o = false.
Proof.
  intros W G C T Gm; apply checkCollision_above.
  destruct (grounded_cat_top c W G) as [Y _]; rewrite C in Y; simpl in Y.
  apply Obstacle.geometry_ok_iff in Gm; unfold Obstacle.Geometry in Gm; rewrite T in Gm.
  destruct Gm as (_ & _ & H & _ & Yo); unfold_config; lra.
Qed.

Lemma crouched_cat_misses_birds_witness :
  let c := Cat.update (mkKeys false false true) Cat.new_Cat in
  let o := Obstacle.mkObstacle 50 125 40 25 Obstacle.BIRD false 1 in
  checkCollision c o = false.
Proof.
  apply crouched_cat_misses_birds; try reflexivity.
  apply Cat.Cat_wfb_iff; vm_compute; reflexivity.
Defined.

(** C18: A standing grounded cat is hit by a bird only when the bird's
    top is below [GROUND_Y - 56 = 119]: for such a cat and a bird, the
    test is the horizontal overlap and [119 < y].  Birds are drawn with
    their top in [(105, 125]], so the draws [r >= 0.3] give birds that pass
    over a standing cat, against the source comment that birds fly "low
    enough to hit head if standing". *)
Theorem standing_cat_bird_collision (c : Cat.Cat) (o : Obstacle.Obstacle) :
  Cat.Cat_wf c -> Cat.isGrounded c = true -> Cat.isCrouching c = false ->
  Obstacle.type o = Obstacle.BIRD -> Obstacle.geometry_ok o = true ->
  checkCollision c o =
    (Cat.x c + 5 <? Obstacle.x o + Obstacle.w o - 4) &&
    (Obstacle.x o + 4 <? Cat.x c + Cat.w c - 5) &&
    (GROUND_Y - 56 <? Obstacle.y o).
Proof.
  intros W G C T Gm.
  destruct (grounded_cat_top c W G) as [Y H]; rewrite C in Y, H; simpl in Y, H.
  apply Obstacle.geometry_ok_iff in Gm; unfold Obstacle.Geometry in Gm; rewrite T in Gm.
  destruct Gm as (_ & _ & Ho & _ & Yo); unfold checkCollision.
  replace (Obstacle.y o + 4 <? Cat.y c + Cat.h c - 5) with true
    by (symmetry; apply Qltb_iff; unfold_config; lra).
  replace (Cat.y c + 5 <? Obstacle.y o + Obstacle.h o - 4)
    with (GROUND_Y - 56 <? Obstacle.y o)
    by (do 2 qcase; auto; unfold_config; lra).
  rewrite andb_true_r; reflexivity.
Qed.

Lemma standing_cat_bird_collision_witness :
  let o := Obstacle.mkObstacle 50 115 40 25 Obstacle.BIRD false 1 in
  checkCollision Cat.new_Cat o = false.
Proof.
  cbv zeta; rewrite standing_cat_bird_collision;
    [vm_compute; reflexivity | apply Cat.new_Cat_wf | reflexivity ..].
Defined.
