(* ===== verification/Spawn.v ===== *)
(** * The spawn policy (src/index.tsx, [spawnObstacle], lines 311-341)

    Once per frame the policy draws a random minimum gap
    [250 + r * 200 + gameSpeed * 15] and appends one new obstacle at the
    right edge of the field when the array is empty or the last obstacle
    has moved further than that gap from the edge.  The type is chosen
    from a second draw by [chooseType]; the obstacle's geometry then comes
    from the constructor of file [Obstacle].  The array is a list; the
    append of [obstacles.push] is [obs ++ [o]].

    The theorems say that a frame appends at most one obstacle, that a
    new obstacle is always more than [250 + 15 * speed] pixels right of
    the previous last one (the deterministic floor of the gap), that a
    gap of [450 + 15 * speed] always triggers a spawn, and how the type
    draw is partitioned. *)

From Stdlib Require Import QArith Lqa List Bool.
From S2P Require Import Prelude Config Random Obstacle.
Import ListNotations.

Open Scope Q_scope.
Open Scope game_scope.

Module Spawn.

Import Obstacle.

(** The [if / else if / else] chain of lines 327-337. *)
Definition chooseType (gameSpeed rand : Q) : ObstacleType :=
  if (5.2 <? gameSpeed) && (0.7 <? rand) then BIRD
  else if 0.5 <? rand then TRASH_CAN
  else CACTUS.

Lemma chooseType_bird_speed (gameSpeed rand : Q) :
  chooseType gameSpeed rand = BIRD -> 5.2 < gameSpeed.
Proof. unfold chooseType; repeat qcase; simpl; intros; try discriminate; auto. Qed.

Section Policy.
Context {G : Type} `{RandomSource G}.
Local Open Scope rnd_scope.

(** [!lastObs || (GAME_WIDTH - lastObs.x > minGap)] *)
Definition gapOpen (minGap : Q) (lastObs : option Obstacle) : bool :=
  match lastObs with
  | None => true
  | Some l => minGap <? GAME_WIDTH - x l
  end.

Definition spawnObstacle (gameSpeed : Q) (obstacles : list Obstacle)
    : Rnd G (list Obstacle) :=
  r <- draw ;;
  let minGap := 250 + r * 200 + gameSpeed * 15 in
  let lastObs := lastOpt obstacles in
  if gapOpen minGap lastObs then
    rand <- draw ;;
    let type := chooseType gameSpeed rand in
    o <- new_Obstacle GAME_WIDTH type ;;
    rret (obstacles ++ [o])
  else rret obstacles.

(** The two outcomes of one call, with the draws that decide them. *)
Lemma spawnObstacle_cases (gameSpeed : Q) (obs : list Obstacle) (g : G) :
  let r := fst (random g) in
  let minGap := 250 + r * 200 + gameSpeed * 15 in
  (gapOpen minGap (lastOpt obs) = false /\ spawnObstacle gameSpeed obs g = (obs, snd (random g))) \/
  (gapOpen minGap (lastOpt obs) = true /\
   exists rand g1,
     random (snd (random g)) = (rand, g1) /\
     spawnObstacle gameSpeed obs g =
       (obs ++ [fst (new_Obstacle GAME_WIDTH (chooseType gameSpeed rand) g1)],
        snd (new_Obstacle GAME_WIDTH (chooseType gameSpeed rand) g1))).
Proof.
  cbv zeta; unfold spawnObstacle, rbind, rret, draw.
  destruct (random g) as [r g0]; simpl.
  destruct (gapOpen _ _) eqn:E; [right | left; auto].
  split; auto; destruct (random g0) as [rand g1]; exists rand, g1; split; auto.
  destruct (new_Obstacle _ _ g1); reflexivity.
Qed.
End Policy.

Section Properties.
Context {G : Type} `{RandomSourceOk G}.

(** What one call can return, with the type draw of a new obstacle. *)
Lemma spawn_result (gameSpeed : Q) (obs : list Obstacle) (g : G) :
  let obs' := fst (spawnObstacle gameSpeed obs g) in
  obs' = obs \/
  exists o rand, obs' = obs ++ [o] /\ x o = GAME_WIDTH /\
    type o = chooseType gameSpeed rand /\
    geometry_ok o = true /\ markedForDeletion o = false /\
    (forall l, lastOpt obs = Some l -> 250 + gameSpeed * 15 < GAME_WIDTH - x l).
Proof.
  cbv zeta.
  destruct (spawnObstacle_cases gameSpeed obs g) as [[_ E] | [Gp (rand & g1 & R & E)]];
    rewrite E; [left; reflexivity | right].
  destruct (new_Obstacle_ok GAME_WIDTH (chooseType gameSpeed rand) g1)
    as (Gm & X & T & M).
  exists (fst (new_Obstacle GAME_WIDTH (chooseType gameSpeed rand) g1)), rand.
  repeat split; auto.
  intros l L; rewrite L in Gp; simpl in Gp; apply Qltb_iff in Gp.
  pose proof (random_range g); lra.
Qed.

(** The array keeps its old obstacles in place and every obstacle it
    gains is unmarked, with the geometry of its type. *)
Lemma spawn_keeps (gameSpeed : Q) (obs : list Obstacle) (g : G) (P : Obstacle -> Prop) :
  Forall P obs ->
  (forall o rand, geometry_ok o = true -> markedForDeletion o = false ->
     type o = chooseType gameSpeed rand -> P o) ->
  Forall P (fst (spawnObstacle gameSpeed obs g)).
Proof.
  intros F N; destruct (spawn_result gameSpeed obs g) as [-> | (o & rand & -> & _ & T & Gm & M & _)];
    auto.
  apply Forall_app; split; auto; constructor; eauto.
Qed.

(** C6: One call of the spawn policy appends at most one obstacle:
    it returns the array unchanged, or the array with one new obstacle
    at its end, placed at the right edge [GAME_WIDTH], with the geometry
    of its type and not marked; and then the previous last obstacle (if
    any) lay more than [250 + 15 * gameSpeed] pixels left of the edge,
    the deterministic floor of the random minimum gap. *)
Theorem spawn_gap (gameSpeed : Q) (obs : list Obstacle) (g : G) :
  let obs' := fst (spawnObstacle gameSpeed obs g) in
  obs' = obs \/
  exists o, obs' = obs ++ [o] /\ x o = GAME_WIDTH /\
    geometry_ok o = true /\ markedForDeletion o = false /\
    (forall l, lastOpt obs = Some l -> 250 + gameSpeed * 15 < GAME_WIDTH - x l).
Proof.
  destruct (spawn_result gameSpeed obs g) as [E | (o & rand & E & X & _ & Gm & M & Gap)];
    [left | right; exists o]; auto.
Qed.

(** C15: The spawn policy cannot stall: when the array is empty, or
    its last obstacle lies at least [450 + 15 * gameSpeed] pixels left of
    the edge (the largest value the random gap can take), the call
    appends exactly one obstacle. *)
Theorem spawn_forced (gameSpeed : Q) (obs : list Obstacle) (g : G) :
  match lastOpt obs with
  | None => True
  | Some l => 450 + gameSpeed * 15 <= GAME_WIDTH - x l
  end ->
  length (fst (spawnObstacle gameSpeed obs g)) = S (length obs).
Proof.
  intros F.
  destruct (spawnObstacle_cases gameSpeed obs g) as [[Gp _] | [_ (rand & g1 & _ & E)]].
  - exfalso; destruct (lastOpt obs) as [l|]; simpl in Gp; [|discriminate].
    apply Qltb_false_iff in Gp; pose proof (random_range g); lra.
  - rewrite E; simpl; rewrite length_app; simpl; rewrite PeanoNat.Nat.add_1_r; reflexivity.
Qed.
End Properties.

Lemma spawn_gap_witness :
  exists o, fst (spawnObstacle 5 [] (MkLcg 7)) = [o] /\ x o = GAME_WIDTH.
Proof.
  destruct (spawn_gap 5 [] (MkLcg 7)) as [E | (o & E & X & _)];
    [vm_compute in E; discriminate | exists o; auto].
Defined.

Lemma spawn_forced_witness :
  length (fst (spawnObstacle 5 [mkObstacle 100 140 20 35 CACTUS false 1] (MkLcg 7))) = 2%nat.
Proof.
  apply (spawn_forced 5 [mkObstacle 100 140 20 35 CACTUS false 1] (MkLcg 7)).
  vm_compute; discriminate.
Defined.

(** C21: The type draw is split by thresholds: while [gameSpeed <= 5.2]
    a draw above [0.5] gives a trash can and the rest a cactus (no
    birds, and trash cans take half of the draws, not the fifth the spec
    states); above [5.2], draws above [0.7] give a bird, draws in
    [(0.5, 0.7]] a trash can, and the rest a cactus. *)
Theorem chooseType_partition (gameSpeed rand : Q) :
  (gameSpeed <= 5.2 ->
     (chooseType gameSpeed rand = TRASH_CAN <-> 0.5 < rand) /\
     (chooseType gameSpeed rand = CACTUS <-> rand <= 0.5)) /\
  (5.2 < gameSpeed ->
     (chooseType gameSpeed rand = BIRD <-> 0.7 < rand) /\
     (chooseType gameSpeed rand = TRASH_CAN <-> 0.5 < rand <= 0.7) /\
     (chooseType gameSpeed rand = CACTUS <-> rand <= 0.5)).
Proof.
  unfold chooseType; split; intros S; repeat qcase; simpl;
    repeat split; intros; try discriminate; try reflexivity; try lra.
Qed.

Lemma chooseType_partition_witness :
  chooseType 5 0.6 = TRASH_CAN /\ chooseType 5.5 0.6 = TRASH_CAN.
Proof.
  split; [apply (proj1 (proj1 (chooseType_partition 5 0.6) ltac:(lra)))
         | apply (proj1 (proj2 (proj2 (chooseType_partition 5.5 0.6) ltac:(lra))))]; lra.
Defined.

End Spawn.
