(* ===== verification/Game.v ===== *)
(** * The session (src/index.tsx, lines 18-28, 343-361, 392-480)

    The game's global variables become the fields of one record [Game]:
    [score], [highScore], [frame], [gameSpeed], [isGameOver], [isPlaying],
    [obstacles], [cat], [keys], plus three pieces of host state the code
    uses implicitly: the random generator [rng] behind [Math.random()],
    the number [pending] of [requestAnimationFrame] callbacks not yet run,
    and the [localStorage] entry [storage] ([None] when absent).

    [resetGame], [keydown], [keyupG] and [gameLoop] translate the
    functions of the source; [handle] is the browser: a key event runs a
    listener, an animation frame runs one pending [gameLoop] callback, or
    nothing when none is pending.  [cancelAnimationFrame(requestID)] in
    the game-over branch names the callback that is running, which has
    already been consumed, so it changes nothing and is not modelled.

    The [obstacles.forEach] loop is [updateAll], which updates each
    obstacle and folds the collision tests into the game-over flag;
    [updateAll_spec] shows it equals the reference [map]/[existsb]
    formulation. *)

From Stdlib Require Import QArith Lqa ZArith Lia List Bool String.
From S2P Require Import Prelude Config Random Input Cat Obstacle Collision Spawn.
Import ListNotations.

Open Scope Q_scope.
Open Scope game_scope.

Module Game.

Import Obstacle.

Record Game {G : Type} : Type := mkGame {
  score : Z;
  highScore : Z;
  frame : Z;
  gameSpeed : Q;
  isGameOver : bool;
  isPlaying : bool;
  obstacles : list Obstacle;
  cat : Cat.Cat;
  keys : Keys;
  rng : G;
  pending : nat;
  storage : option Z
}.
Arguments Game : clear implicits.
Arguments mkGame {G}.

(** [Number(localStorage.getItem('dinoHighScore')) || 0] *)
Definition loadHighScore (stored : option Z) : Z :=
  match stored with Some v => v | None => 0%Z end.

(** The browser events the program reacts to. *)
Inductive Event : Type :=
| KeyDown (code : string)
| KeyUp (code : string)
| AnimationFrame.

Section Session.
Context {G : Type} `{RandomSource G}.

(** The module-level initialisers (lines 21-35) and [init()] (lines
    458-476) once the canvas exists. *)
Definition init (g : G) (stored : option Z) : Game G :=
  mkGame 0 (loadHighScore stored) 0 5 false false [] Cat.new_Cat keys0 g 0 stored.

(** [resetGame()] *)
Definition resetGame (s : Game G) : Game G :=
  mkGame 0 (highScore s) 0 5 false true [] Cat.new_Cat (keys s) (rng s)
    (S (pending s)) (storage s).

(** The [keydown] listener. *)
Definition keydown (code : string) (s : Game G) : Game G :=
  let s1 := mkGame (score s) (highScore s) (frame s) (gameSpeed s) (isGameOver s)
              (isPlaying s) (obstacles s) (cat s) (setKeys code true (keys s))
              (rng s) (pending s) (storage s) in
  if (negb (isPlaying s1) || isGameOver s1) && isStartCode code then
    if isGameOver s1 then resetGame s1
    else if negb (isPlaying s1) then
      mkGame (score s1) (highScore s1) (frame s1) (gameSpeed s1) (isGameOver s1)
        true (obstacles s1) (cat s1) (keys s1) (rng s1) (S (pending s1)) (storage s1)
    else s1
  else s1.

(** The [keyup] listener. *)
Definition keyupG (code : string) (s : Game G) : Game G :=
  mkGame (score s) (highScore s) (frame s) (gameSpeed s) (isGameOver s)
    (isPlaying s) (obstacles s) (cat s) (keyup code (keys s)) (rng s)
    (pending s) (storage s).
End Session.

(** [obstacles.forEach(obs => { obs.update(); ...; if (checkCollision(cat, obs))
    isGameOver = true; })] *)
Fixpoint updateAll (speed : Q) (c : Cat.Cat) (obs : list Obstacle) (over : bool)
    : list Obstacle * bool :=
  match obs with
  | [] => ([], over)
  | o :: rest =>
      let o' := update speed o in
      let over' := if checkCollision c o' then true else over in
      let (rest', over'') := updateAll speed c rest over' in
      (o' :: rest', over'')
  end.

(** [obstacles.filter(obs => !obs.markedForDeletion)] *)
Definition live (obs : list Obstacle) : list Obstacle :=
  filter (fun o => negb (markedForDeletion o)) obs.

(** [frame++; if (frame % 5 === 0) score++;] *)
Definition nextScore (frame' score : Z) : Z :=
  if (frame' mod 5 =? 0)%Z then (score + 1)%Z else score.

(** [if (frame % 500 === 0) gameSpeed += 0.5;] *)
Definition nextSpeed (frame' : Z) (speed : Q) : Q :=
  if (frame' mod 500 =? 0)%Z then speed + 0.5 else speed.

Section Loop.
Context {G : Type} `{RandomSource G}.

(** [gameLoop()] without its drawing. *)
Definition gameLoop (s : Game G) : Game G :=
  if negb (isPlaying s) then s
  else
    let cat' := Cat.update (keys s) (cat s) in
    let (obs1, g1) := Spawn.spawnObstacle (gameSpeed s) (obstacles s) (rng s) in
    let (obs2, over) := updateAll (gameSpeed s) cat' obs1 (isGameOver s) in
    let obs3 := live obs2 in
    let frame' := (frame s + 1)%Z in
    let score' := nextScore frame' (score s) in
    let speed' := nextSpeed frame' (gameSpeed s) in
    if over then
      if (score' >? highScore s)%Z then
        mkGame score' score' frame' speed' true true obs3 cat' (keys s) g1
          (pending s) (Some score')
      else
        mkGame score' (highScore s) frame' speed' true true obs3 cat' (keys s) g1
          (pending s) (storage s)
    else
      mkGame score' (highScore s) frame' speed' false true obs3 cat' (keys s) g1
        (S (pending s)) (storage s).

(** The browser takes a callback off its queue before running it. *)
Definition withPending (n : nat) (s : Game G) : Game G :=
  mkGame (score s) (highScore s) (frame s) (gameSpeed s) (isGameOver s)
    (isPlaying s) (obstacles s) (cat s) (keys s) (rng s) n (storage s).

(** The browser: one event at a time. *)
Definition handle (e : Event) (s : Game G) : Game G :=
  match e with
  | KeyDown code => keydown code s
  | KeyUp code => keyupG code s
  | AnimationFrame =>
      match pending s with
      | O => s
      | S n => gameLoop (withPending n s)
      end
  end.

Definition run (es : list Event) (s : Game G) : Game G :=
  fold_left (fun s e => handle e s) es s.

(** The states the program can reach from its start. *)
Inductive reachable : Game G -> Prop :=
| reachable_init (g : G) (stored : option Z) : reachable (init g stored)
| reachable_step (e : Event) (s : Game G) : reachable s -> reachable (handle e s).

Lemma run_reachable (es : list Event) (s : Game G) : reachable s -> reachable (run es s).
Proof.
  revert s; induction es as [|e es IH]; intros s R; simpl; auto.
  apply IH; constructor; exact R.
Qed.
End Loop.

(** [withPending] changes nothing but the queue. *)
Ltac simpl_withPending :=
  cbn [withPending score highScore frame gameSpeed isGameOver isPlaying obstacles
       cat keys rng pending storage] in *.

(** ** The obstacle loop *)

Lemma updateAll_eq (speed : Q) (c : Cat.Cat) (obs : list Obstacle) (over : bool) :
  updateAll speed c obs over =
    (map (update speed) obs, over || existsb (checkCollision c) (map (update speed) obs)).
Proof.
  revert over; induction obs as [|o obs IH]; intros over; simpl.
  - rewrite orb_false_r; reflexivity.
  - rewrite IH; destruct (checkCollision c (update speed o)); simpl;
      rewrite ?orb_true_r; reflexivity.
Qed.

(** C13: The [forEach] loop of [gameLoop] is the reference
    formulation: it returns every obstacle updated, in order, and the
    game-over flag is the old flag or-ed with whether some updated
    obstacle collides with the cat. *)
Theorem updateAll_spec (speed : Q) (c : Cat.Cat) (obs : list Obstacle) (over : bool) :
  updateAll speed c obs over =
    (map (update speed) obs, over || existsb (checkCollision c) (map (update speed) obs)).
Proof. apply updateAll_eq. Qed.

(** An obstacle that [update] has just retired lies left of the field,
    so it is out of the cat's reach. *)
Lemma retired_no_collision (c : Cat.Cat) (speed : Q) (o : Obstacle) :
  Cat.x c == CAT_X -> markedForDeletion o = false ->
  markedForDeletion (update speed o) = true -> checkCollision c (update speed o) = false.
Proof.
  intros X M M'; apply update_marked in M' as [L | L]; [|congruence].
  unfold checkCollision.
  replace (Cat.x c + 5 <? x (update speed o) + w (update speed o) - 4) with false
    by (symmetry; apply Qltb_false_iff; simpl in *; unfold_config; lra).
  reflexivity.
Qed.

Lemma existsb_live (c : Cat.Cat) (speed : Q) (obs : list Obstacle) :
  Cat.x c == CAT_X -> Forall (fun o => markedForDeletion o = false) obs ->
  existsb (checkCollision c) (map (update speed) obs) =
  existsb (checkCollision c) (live (map (update speed) obs)).
Proof.
  intros X F; unfold live in *; induction F as [|o obs M F IH]; auto.
  cbn [map filter existsb].
  destruct (markedForDeletion (update speed o)) eqn:M'; cbn [negb existsb].
  - rewrite (retired_no_collision c speed o X M M'); exact IH.
  - rewrite IH; reflexivity.
Qed.

(** C10: Retirement never hides or causes a collision: for a cat at
    its fixed [x] and obstacles not yet marked, testing every updated
    obstacle (as the loop does, before the filter) finds a collision
    exactly when testing only the obstacles the filter keeps does. *)
Theorem collision_ignores_retired (c : Cat.Cat) (speed : Q) (obs : list Obstacle) :
  Cat.x c == CAT_X -> Forall (fun o => markedForDeletion o = false) obs ->
  existsb (checkCollision c) (map (update speed) obs) =
  existsb (checkCollision c) (live (map (update speed) obs)).
Proof. apply existsb_live. Qed.

Lemma collision_ignores_retired_witness :
  let o := mkObstacle 5 140 20 35 CACTUS false 1 in
  existsb (checkCollision Cat.new_Cat) (map (update 5) [o]) =
  existsb (checkCollision Cat.new_Cat) (live (map (update 5) [o])).
Proof. apply collision_ignores_retired; [reflexivity | repeat constructor]. Defined.

(** ** Counters *)

Lemma nextScore_div (f : Z) : (0 <= f)%Z -> nextScore (f + 1) (f / 5) = ((f + 1) / 5)%Z.
Proof. intros; unfold nextScore; destruct (Z.eqb_spec ((f + 1) mod 5) 0); zdiv. Qed.

Lemma nextSpeed_div (f : Z) (speed : Q) :
  (0 <= f)%Z -> speed == 5 + inject_Z (f / 500) * 0.5 ->
  nextSpeed (f + 1) speed == 5 + inject_Z ((f + 1) / 500) * 0.5.
Proof.
  intros F Sp; unfold nextSpeed.
  destruct (Z.eqb_spec ((f + 1) mod 500) 0); rewrite Sp.
  - replace ((f + 1) / 500)%Z with (f / 500 + 1)%Z by zdiv.
    rewrite inject_Z_plus; change (inject_Z 1) with 1; ring.
  - replace ((f + 1) / 500)%Z with (f / 500)%Z by zdiv; reflexivity.
Qed.

(** ** One frame *)

Section LoopSpec.
Context {G : Type} `{RandomSourceOk G}.

Lemma gameLoop_fields (s : Game G) :
  isPlaying s = true -> Cat.Cat_wf (cat s) ->
  Forall (fun o => markedForDeletion o = false) (obstacles s) ->
  let cat' := Cat.update (keys s) (cat s) in
  let obs1 := fst (Spawn.spawnObstacle (gameSpeed s) (obstacles s) (rng s)) in
  let obs3 := live (map (update (gameSpeed s)) obs1) in
  let over := isGameOver s || existsb (checkCollision cat') obs3 in
  let s' := gameLoop s in
  isGameOver s' = over /\ isPlaying s' = true /\ obstacles s' = obs3 /\
  cat s' = cat' /\ frame s' = (frame s + 1)%Z /\
  score s' = nextScore (frame s + 1) (score s) /\
  gameSpeed s' = nextSpeed (frame s + 1) (gameSpeed s) /\
  highScore s' = (if over then Z.max (highScore s) (score s') else highScore s) /\
  storage s' = (if over && (score s' >? highScore s)%Z then Some (score s')
                else storage s) /\
  pending s' = (if over then pending s else S (pending s)).
Proof.
  intros P W F; cbv zeta; unfold gameLoop; rewrite P; cbn [negb].
  pose proof (Spawn.spawn_keeps (gameSpeed s) (obstacles s) (rng s)
                (fun o => markedForDeletion o = false) F ltac:(auto)) as F1.
  destruct (Spawn.spawnObstacle (gameSpeed s) (obstacles s) (rng s)) as [obs1 g1];
    cbn [fst] in *.
  rewrite updateAll_eq, <- existsb_live;
    [| apply (Cat.wf_x _ (Cat.update_establishes_wf _ _ (Cat.wf_x _ W) (Cat.wf_w _ W)))
     | exact F1].
  destruct (isGameOver s || _); cbn; [|repeat split; auto].
  destruct (nextScore (frame s + 1) (score s) >? highScore s)%Z eqn:C; cbn; rewrite ?C;
    [apply Z.gtb_lt in C | rewrite Z.gtb_ltb, Z.ltb_ge in C]; repeat split; auto; lia.
Qed.

(** C3: One frame of a running game does, in order: update the cat;
    let the spawn policy extend the array; update every obstacle; drop
    the retired ones; advance the frame counter, the score (every 5th
    frame) and the speed (every 500th frame).  The round is over exactly
    when it was over already or the updated cat collides with one of the
    obstacles kept; then the high score becomes the maximum of the old
    high score and the new score, [localStorage] is written only when
    the score beat the high score, and no next frame is requested;
    otherwise exactly one next frame is requested. *)
Theorem gameLoop_spec (s : Game G) :
  isPlaying s = true -> Cat.Cat_wf (cat s) ->
  Forall (fun o => markedForDeletion o = false) (obstacles s) ->
  let cat' := Cat.update (keys s) (cat s) in
  let obs1 := fst (Spawn.spawnObstacle (gameSpeed s) (obstacles s) (rng s)) in
  let obs3 := live (map (update (gameSpeed s)) obs1) in
  let over := isGameOver s || existsb (checkCollision cat') obs3 in
  let s' := gameLoop s in
  isGameOver s' = over /\ isPlaying s' = true /\ obstacles s' = obs3 /\
  cat s' = cat' /\ frame s' = (frame s + 1)%Z /\
  score s' = nextScore (frame s + 1) (score s) /\
  gameSpeed s' = nextSpeed (frame s + 1) (gameSpeed s) /\
  highScore s' = (if over then Z.max (highScore s) (score s') else highScore s) /\
  storage s' = (if over && (score s' >? highScore s)%Z then Some (score s')
                else storage s) /\
  pending s' = (if over then pending s else S (pending s)).
Proof. apply gameLoop_fields. Qed.
End LoopSpec.

Definition crash_state : Game Lcg :=
  mkGame 0 3 0 5 false true [mkObstacle 60 140 20 35 CACTUS false 1]
    Cat.new_Cat keys0 (MkLcg 1) 0 None.

Lemma gameLoop_spec_witness :
  isGameOver (gameLoop crash_state) = true /\ pending (gameLoop crash_state) = 0%nat.
Proof.
  destruct (gameLoop_spec crash_state eq_refl Cat.new_Cat_wf ltac:(repeat constructor))
    as (O & _ & _ & _ & _ & _ & _ & _ & _ & Pd).
  split; [rewrite O | rewrite Pd]; vm_compute; reflexivity.
Defined.

(** ** Start and restart *)

Section Keys.
Context {G : Type} `{RandomSource G}.

(** C7: A Space or ArrowUp key-down during a game over restarts the
    game: score, frame counter, speed, obstacles and cat are back to
    their initial values, the game is playing again with one frame
    requested, and the high score and its stored copy are untouched.
    Nothing is required of the key state: a key-down the browser
    repeats while the key is still held restarts as well. *)
Theorem restart_resets (code : string) (s : Game G) :
  isGameOver s = true -> isStartCode code = true ->
  let s' := keydown code s in
  score s' = 0%Z /\ frame s' = 0%Z /\ gameSpeed s' = 5 /\ obstacles s' = [] /\
  cat s' = Cat.new_Cat /\ isPlaying s' = true /\ isGameOver s' = false /\
  highScore s' = highScore s /\ storage s' = storage s /\
  pending s' = S (pending s) /\ keys s' = setKeys code true (keys s).
Proof.
  intros O C; unfold keydown; cbn; rewrite O, C, orb_true_r; cbn.
  repeat split.
Qed.
End Keys.

Lemma restart_resets_witness :
  let s := gameLoop crash_state in
  isGameOver s = true /\ frame (keydown "Space" s) = 0%Z.
Proof.
  assert (O : isGameOver (gameLoop crash_state) = true) by (vm_compute; reflexivity).
  split; [exact O|].
  apply (restart_resets "Space" (gameLoop crash_state) O eq_refl).
Defined.

End Game.
