(* ===== verification/GameInv.v ===== *)
(** * The session invariant

    [Inv] collects what holds in every state the program can reach from
    its start: the cat's invariant; every live obstacle has the geometry
    of its type, is not marked, and is a bird only after frame 500; the
    game is never over without playing; exactly one animation frame is
    requested while the game runs and none otherwise; an idle game is at
    frame 0; the score is [frame / 5] and the speed is
    [5 + 0.5 * (frame / 500)]; and the high score is what [localStorage]
    holds.  Each event preserves it ([init_inv], [keyupG_inv],
    [keydown_inv], [gameLoop_inv]), hence every reachable state
    satisfies it (by induction on [reachable]). *)

From Stdlib Require Import QArith Lqa ZArith Lia List Bool String.
Open Scope string_scope.
From S2P Require Import Prelude Config Random Input Cat Obstacle Collision Spawn Game.
Import ListNotations.

Open Scope Q_scope.
Open Scope game_scope.

Module GameInv.

Import Obstacle Game.

Definition obs_ok (f : Z) (o : Obstacle) : Prop :=
  geometry_ok o = true /\ markedForDeletion o = false /\ (type o = BIRD -> (500 < f)%Z).

Record Inv {G : Type} (s : Game G) : Prop := {
  inv_cat : Cat.Cat_wf (cat s);
  inv_obs : Forall (obs_ok (frame s)) (obstacles s);
  inv_phase : isGameOver s = true -> isPlaying s = true;
  inv_pending : pending s = (if isPlaying s && negb (isGameOver s) then 1 else 0)%nat;
  inv_frame : (0 <= frame s)%Z;
  inv_idle : isPlaying s = false -> frame s = 0%Z;
  inv_score : score s = (frame s / 5)%Z;
  inv_speed : gameSpeed s == 5 + inject_Z (frame s / 500) * 0.5;
  inv_store : highScore s = loadHighScore (storage s)
}.

Section Preservation.
Context {G : Type} `{RandomSourceOk G}.

Lemma init_inv (g : G) (stored : option Z) : Inv (init g stored).
Proof.
  constructor; cbn; auto using Cat.new_Cat_wf; try discriminate; try lra; reflexivity.
Qed.

Lemma keyupG_inv (code : string) (s : Game G) : Inv s -> Inv (keyupG code s).
Proof. intros []; constructor; auto. Qed.

(** The three outcomes of a key-down. *)
Lemma keydown_inv (code : string) (s : Game G) : Inv s -> Inv (keydown code s).
Proof.
  intros I; destruct I as [C O Ph Pd Fr Id Sc Sp St].
  unfold keydown; cbn.
  destruct (isGameOver s) eqn:Ov, (isPlaying s) eqn:Pl, (isStartCode code);
    cbn in *; try discriminate (Ph eq_refl);
    constructor; cbn; auto using Cat.new_Cat_wf; try discriminate; try reflexivity;
    rewrite Pd; reflexivity.
Qed.

(** A bird appears only once the speed has passed [5.2], i.e. once the
    frame counter has reached 500. *)
Lemma bird_frame (f : Z) (speed rand : Q) :
  (0 <= f)%Z -> speed == 5 + inject_Z (f / 500) * 0.5 ->
  Spawn.chooseType speed rand = BIRD -> (500 < f + 1)%Z.
Proof.
  intros F Sp B; apply Spawn.chooseType_bird_speed in B.
  assert (Q0 : 0 < inject_Z (f / 500)) by lra.
  change 0 with (inject_Z 0) in Q0; rewrite <- Zlt_Qlt in Q0; zdiv.
Qed.

Lemma live_ok (f : Z) (speed : Q) (obs : list Obstacle) :
  Forall (fun o => geometry_ok o = true /\ (type o = BIRD -> (500 < f)%Z)) obs ->
  Forall (obs_ok f) (live (map (update speed) obs)).
Proof.
  intros F; apply Forall_forall; intros o I.
  unfold live in I; apply filter_In in I as [I M]; apply negb_true_iff in M.
  apply in_map_iff in I as (o0 & <- & I0); rewrite Forall_forall in F.
  destruct (F o0 I0) as [Gm B]; split; [|split]; auto.
Qed.

Lemma gameLoop_inv (s : Game G) :
  Inv s -> isPlaying s = true -> isGameOver s = false ->
  Inv (gameLoop (withPending 0 s)).
Proof.
  intros [C O Ph Pd Fr Id Sc Sp St] Pl Ov.
  assert (F : Forall (fun o => markedForDeletion o = false) (obstacles s))
    by (eapply Forall_impl; [|exact O]; intros o (_ & M & _); exact M).
  destruct (gameLoop_fields (withPending 0 s) Pl C F)
    as (Ov' & Pl' & Ob & Ct & Fr' & Sc' & Sp' & Hs & St' & Pd'); cbn in *.
  constructor.
  - rewrite Ct; apply Cat.update_establishes_wf; [apply (Cat.wf_x _ C) | apply (Cat.wf_w _ C)].
  - rewrite Ob, Fr'; apply live_ok, Spawn.spawn_keeps.
    + eapply Forall_impl; [|exact O]; intros o (Gm & _ & B); split; auto.
      intros T; specialize (B T); lia.
    + intros o rand Gm _ T; split; auto; intros B; rewrite B in T.
      symmetry in T; exact (bird_frame _ _ _ Fr Sp T).
  - rewrite Pl'; auto.
  - rewrite Pl', Ov', Pd', Ov; cbn.
    destruct (existsb _ _); reflexivity.
  - lia.
  - rewrite Pl'; discriminate.
  - rewrite Sc', Fr', Sc; apply nextScore_div, Fr.
  - rewrite Sp', Fr'; apply nextSpeed_div; auto.
  - rewrite St', Hs, Sc', Ov; cbn.
    destruct (existsb _ _); cbn; auto.
    destruct (nextScore (frame s + 1) (score s) >? highScore s)%Z eqn:E; cbn;
      [apply Z.gtb_lt in E | rewrite Z.gtb_ltb, Z.ltb_ge in E; rewrite <- St]; lia.
Qed.

Lemma handle_inv (e : Event) (s : Game G) : Inv s -> Inv (handle e s).
Proof.
  intros I; destruct e as [code | code |]; cbn.
  - apply keydown_inv, I.
  - apply keyupG_inv, I.
  - destruct (pending s) as [|n] eqn:P; auto.
    pose proof (inv_pending s I) as Pd; rewrite P in Pd.
    destruct (isPlaying s) eqn:Pl, (isGameOver s) eqn:Ov; cbn in Pd; try discriminate.
    injection Pd as ->; apply gameLoop_inv; auto.
Qed.

Lemma reachable_Inv (s : Game G) : reachable s -> Inv s.
Proof. induction 1; [apply init_inv | apply handle_inv; auto]. Qed.
End Preservation.

Section Corollaries.
Context {G : Type} `{RandomSourceOk G}.

(** C2: Every state reachable from the start by key events and
    animation frames satisfies the session invariant [Inv]. *)
Theorem reachable_inv (s : Game G) : reachable s -> Inv s.
Proof. apply reachable_Inv. Qed.

(** C14: The difficulty ramp: in every reachable state the speed is
    still the baseline [5] before frame 500, and at frame 500 the speed
    has been raised exactly once, to [5.5], and the score is exactly
    [100]. *)
Theorem counters_at_frame_500 (s : Game G) :
  reachable s ->
  ((frame s < 500)%Z -> gameSpeed s == 5) /\
  (frame s = 500%Z -> score s = 100%Z /\ gameSpeed s == 5.5).
Proof.
  intros R; destruct (reachable_Inv s R) as [_ _ _ _ Fr _ Sc Sp _]; split.
  - intros L; rewrite Sp; replace (frame s / 500)%Z with 0%Z by zdiv; reflexivity.
  - intros E; rewrite Sc, Sp, E; split; reflexivity.
Qed.

(** C20: No bird is on the field up to frame 500 of a session: birds
    need a speed above [5.2], which the ramp reaches only at frame 500. *)
Theorem no_birds_before_500 (s : Game G) :
  reachable s -> (frame s <= 500)%Z ->
  Forall (fun o => type o <> BIRD) (obstacles s).
Proof.
  intros R L; destruct (reachable_Inv s R) as [_ O _ _ _ _ _ _ _].
  eapply Forall_impl; [|exact O]; intros o (_ & _ & B) T; specialize (B T); lia.
Qed.

End Corollaries.

Definition demo_events : list Event :=
  KeyDown "Space" :: KeyUp "Space" :: repeat AnimationFrame 30.

Lemma demo_reachable : reachable (run demo_events (init (MkLcg 1) None)).
Proof. apply run_reachable, reachable_init. Qed.

Lemma reachable_inv_witness : Inv (run demo_events (init (MkLcg 1) None)).
Proof. apply (reachable_inv _ demo_reachable). Defined.

Lemma counters_at_frame_500_witness :
  gameSpeed (run demo_events (init (MkLcg 1) None)) == 5.
Proof.
  apply (proj1 (counters_at_frame_500 _ demo_reachable)); vm_compute; reflexivity.
Defined.

Lemma no_birds_before_500_witness :
  Forall (fun o => type o <> BIRD) (obstacles (run demo_events (init (MkLcg 1) None))).
Proof. apply (no_birds_before_500 _ demo_reachable); vm_compute; discriminate. Defined.


End GameInv.
