(* ===== verification/Refinement.v ===== *)
(** * The session contract and its refinement

    The abstract session of the spec (section 4.6) has a phase, a frame
    counter and a best score.  Its steps: [Idle] starts [Playing] without
    resetting anything; a [Playing] frame advances the counter by one and
    either stays [Playing] or ends in [GameOver], where the best score
    becomes the maximum of itself and the final score [frame / 5];
    [GameOver] restarts into [Playing] at frame 0; every state may
    stutter.  The implementation's state is mapped to this one by [abs]
    ([isGameOver] first, then [isPlaying]); [handle_simulates] shows that
    each browser event from a reachable state is an abstract step, and the
    claims follow: every reachable state is abstractly reachable, and
    properties proved once on the abstract machine (the best score never
    decreases) hold of the program. *)

From Stdlib Require Import QArith ZArith Lia List Bool String.
From S2P Require Import Prelude Config Random Input Cat Obstacle Collision Spawn Game GameInv.
Import ListNotations.
Open Scope string_scope.

Module Refinement.

Import Game GameInv.

Inductive Phase : Type := Idle | Playing | GameOver.

Record Abs : Type := mkAbs { aphase : Phase; aframe : Z; abest : Z }.

Inductive spec_step : Abs -> Abs -> Prop :=
| spec_start (f b : Z) : spec_step (mkAbs Idle f b) (mkAbs Playing f b)
| spec_tick (f b : Z) : spec_step (mkAbs Playing f b) (mkAbs Playing (f + 1) b)
| spec_crash (f b : Z) :
    spec_step (mkAbs Playing f b) (mkAbs GameOver (f + 1) (Z.max b ((f + 1) / 5)))
| spec_restart (f b : Z) : spec_step (mkAbs GameOver f b) (mkAbs Playing 0 b)
| spec_stutter (a : Abs) : spec_step a a.


(** The best score of the abstract machine never decreases. *)
Lemma spec_best_mono (a a' : Abs) : spec_step a a' -> (abest a <= abest a')%Z.
Proof. destruct 1; simpl; lia. Qed.

Definition phase {G : Type} (s : Game G) : Phase :=
  if isGameOver s then GameOver else if isPlaying s then Playing else Idle.

Definition abs {G : Type} (s : Game G) : Abs := mkAbs (phase s) (frame s) (highScore s).

Section Simulation.
Context {G : Type} `{RandomSourceOk G}.

Lemma keydown_simulates (code : string) (s : Game G) :
  Inv s -> spec_step (abs s) (abs (keydown code s)).
Proof.
  intros [_ _ Ph _ _ Id _ _ _]; unfold abs, phase, keydown; cbn.
  destruct (isGameOver s) eqn:Ov, (isPlaying s) eqn:Pl, (isStartCode code); cbn;
    try apply spec_stutter; try discriminate (Ph eq_refl).
  - apply spec_restart.
  - apply spec_start.
Qed.

Lemma handle_simulates (e : Event) (s : Game G) :
  Inv s -> spec_step (abs s) (abs (handle e s)).
Proof.
  intros I; destruct e as [code | code |]; cbn.
  - apply keydown_simulates, I.
  - apply spec_stutter.
  - destruct (pending s) as [|n] eqn:P; [apply spec_stutter|].
    destruct I as [C O Ph Pd Fr Id Sc Sp St]; rewrite P in Pd.
    destruct (isPlaying s) eqn:Pl, (isGameOver s) eqn:Ov; cbn in Pd; try discriminate.
    assert (F : Forall (fun o => Obstacle.markedForDeletion o = false) (obstacles s))
      by (eapply Forall_impl; [|exact O]; intros o (_ & M & _); exact M).
    destruct (gameLoop_fields (withPending n s) Pl C F)
      as (Ov' & Pl' & _ & _ & Fr' & Sc' & _ & Hs & _ & _); simpl_withPending.
    unfold abs, phase; rewrite Ov', Pl', Fr', Hs, Sc', Ov, Pl, Sc, nextScore_div by exact Fr.
    cbn; destruct (existsb _ _); [apply spec_crash | apply spec_tick].
Qed.


(** C11: The high score never decreases: no event from a reachable
    state lowers it. *)
Theorem highScore_monotone (e : Event) (s : Game G) :
  reachable s -> (highScore s <= highScore (handle e s))%Z.
Proof.
  intros R; exact (spec_best_mono _ _ (handle_simulates e s (reachable_Inv s R))).
Qed.
End Simulation.


Lemma highScore_monotone_witness :
  (highScore (run demo_events (init (MkLcg 1) (Some 7%Z))) <=
   highScore (handle AnimationFrame (run demo_events (init (MkLcg 1) (Some 7%Z)))))%Z.
Proof. apply highScore_monotone, run_reachable, reachable_init. Defined.

End Refinement.
