(* ===== verification/Storage.v ===== *)
(** * The stored high score (src/index.tsx, lines 22 and 446-449)

    [localStorage] holds strings.  The game writes
    [String(highScore)] when a round ends with a new best score, and
    reads [Number(localStorage.getItem('dinoHighScore')) || 0] once at
    load time.  This file models the two JavaScript conversions on the
    strings of the model (sequences of 8-bit characters, read as their
    Latin-1 code units):

    - [String_of_Z]: [String(n)] for an integer [n] with [|n| < 10^21],
      where JavaScript prints plain decimal digits with a leading [-];
    - [StringToNumber]: [Number(s)] on a string, after the grammar
      StringNumericLiteral of ECMAScript: surrounding white space is
      ignored, the empty string is [0], a decimal literal has an optional
      sign, digits, an optional fraction and an optional exponent, the
      non-decimal forms [0x]/[0o]/[0b] take no sign, [Infinity] may be
      signed, and every other string is [NaN].  Values whose magnitude
      reaches [2^1024 - 2^970] round to an infinity and values of
      magnitude at most [2^-1075] round to zero, as in binary64; other
      values stay exact (the development's rational model of numbers);
    - [orZero]: [x || 0] on a number, which replaces the falsy values
      [0], [-0] and [NaN] by [0].

    The session model of file [Game] keeps the stored value as an
    optional integer; [load_refines] shows that the strings the game
    writes load back to exactly that integer. *)

From Stdlib Require Import QArith Qpower Qabs ZArith Lia List Bool Ascii String.
From Stdlib Require Import DecimalString DecimalPos DecimalN Lqa.
From S2P Require Import Prelude Random Game GameInv.
Import ListNotations.

Open Scope Q_scope.
Open Scope game_scope.
Open Scope list_scope.

Module Storage.

(** ** JavaScript numbers *)

Inductive JSNumber : Type :=
| Finite (q : Q)
| PosInfinity
| NegInfinity
| NaN.

(** Two numbers with the same value (rationals compared with [==]). *)
Definition num_eq (a b : JSNumber) : Prop :=
  match a, b with
  | Finite p, Finite q => p == q
  | PosInfinity, PosInfinity | NegInfinity, NegInfinity | NaN, NaN => True
  | _, _ => False
  end.

Definition negate (v : JSNumber) : JSNumber :=
  match v with
  | Finite q => Finite (- q)
  | PosInfinity => NegInfinity
  | NegInfinity => PosInfinity
  | NaN => NaN
  end.

(** The largest magnitude that does not round to an infinity, and the
    largest that rounds to zero. *)
Definition overflowBound : Q := inject_Z (2 ^ 1024 - 2 ^ 970).
Definition underflowBound : Q := 1 # (2 ^ 1075).

Definition roundDouble (q : Q) : JSNumber :=
  if overflowBound <=? q then PosInfinity
  else if q <=? - overflowBound then NegInfinity
  else if Qabs q <=? underflowBound then Finite 0
  else Finite q.

(** [x || 0] on a number. *)
Definition orZero (v : JSNumber) : JSNumber :=
  match v with
  | Finite q => if Qeq_bool q 0 then Finite 0 else v
  | NaN => Finite 0
  | _ => v
  end.

(** ** [String(n)] *)

Definition String_of_Z (n : Z) : string := NilZero.string_of_int (Z.to_int n).

(** ** [Number(s)] *)

Definition isWhiteSpace (c : ascii) : bool :=
  let n := nat_of_ascii c in
  ((9 <=? n) && (n <=? 13))%nat || (n =? 32)%nat || (n =? 160)%nat.

Fixpoint dropWS (l : list ascii) : list ascii :=
  match l with
  | c :: r => if isWhiteSpace c then dropWS r else l
  | [] => []
  end.

Definition trim (l : list ascii) : list ascii := rev (dropWS (rev (dropWS l))).

(** The value of a digit of bases up to 16. *)
Definition digitValue (c : ascii) : option Z :=
  let n := Z.of_nat (nat_of_ascii c) in
  if ((48 <=? n) && (n <=? 57))%Z then Some (n - 48)%Z
  else if ((97 <=? n) && (n <=? 102))%Z then Some (n - 87)%Z
  else if ((65 <=? n) && (n <=? 70))%Z then Some (n - 55)%Z
  else None.

Definition digitIn (base : Z) (c : ascii) : option Z :=
  match digitValue c with
  | Some d => if (d <? base)%Z then Some d else None
  | None => None
  end.

(** The longest prefix of digits of the base, and the rest. *)
Fixpoint spanDigits (base : Z) (l : list ascii) : list Z * list ascii :=
  match l with
  | c :: r =>
      match digitIn base c with
      | Some d => let (ds, rest) := spanDigits base r in (d :: ds, rest)
      | None => ([], l)
      end
  | [] => ([], [])
  end.

Definition horner (base : Z) (ds : list Z) : Z :=
  fold_left (fun acc d => (acc * base + d)%Z) ds 0%Z.

Definition charsOf (s : string) : list ascii := list_ascii_of_string s.

(** ExponentPart after its [e]/[E]: an optional sign and digits. *)
Definition parseExponent (l : list ascii) : option (Z * list ascii) :=
  let '(sgn, r) :=
    match l with
    | c :: r =>
        if Ascii.eqb c "+" then (1%Z, r)
        else if Ascii.eqb c "-" then ((-1)%Z, r)
        else (1%Z, l)
    | [] => (1%Z, l)
    end in
  match spanDigits 10 r with
  | ([], _) => None
  | (ds, rest) => Some ((sgn * horner 10 ds)%Z, rest)
  end.

(** StrUnsignedDecimalLiteral, which must take the whole input. *)
Definition parseUnsignedDecimal (l : list ascii) : option JSNumber :=
  if list_eq_dec ascii_dec l (charsOf "Infinity") then Some PosInfinity
  else
    let (d1, r1) := spanDigits 10 l in
    let (d2, r2) :=
      match r1 with
      | c :: r => if Ascii.eqb c "." then spanDigits 10 r else ([], r1)
      | [] => ([], r1)
      end in
    let expo :=
      match r2 with
      | [] => Some 0%Z
      | c :: r =>
          if Ascii.eqb c "e" || Ascii.eqb c "E" then
            match parseExponent r with
            | Some (e, []) => Some e
            | _ => None
            end
          else None
      end in
    match d1, d2, expo with
    | [], [], _ => None
    | _, _, None => None
    | _, _, Some e =>
        Some (roundDouble (inject_Z (horner 10 (d1 ++ d2)) *
                           Qpower 10 (e - Z.of_nat (List.length d2))))
    end.

(** NonDecimalIntegerLiteral after its prefix: digits of the base only. *)
Definition parseNonDecimal (base : Z) (l : list ascii) : option JSNumber :=
  match spanDigits base l with
  | ((_ :: _) as ds, []) => Some (roundDouble (inject_Z (horner base ds)))
  | _ => None
  end.

(** StrNumericLiteral. *)
Definition parseNumericLiteral (l : list ascii) : option JSNumber :=
  match l with
  | c :: r =>
      if Ascii.eqb c "+" then parseUnsignedDecimal r
      else if Ascii.eqb c "-" then option_map negate (parseUnsignedDecimal r)
      else if Ascii.eqb c "0" then
        match r with
        | c' :: r' =>
            if Ascii.eqb c' "x" || Ascii.eqb c' "X" then parseNonDecimal 16 r'
            else if Ascii.eqb c' "o" || Ascii.eqb c' "O" then parseNonDecimal 8 r'
            else if Ascii.eqb c' "b" || Ascii.eqb c' "B" then parseNonDecimal 2 r'
            else parseUnsignedDecimal l
        | [] => parseUnsignedDecimal l
        end
      else parseUnsignedDecimal l
  | [] => parseUnsignedDecimal l
  end.

(** [Number(s)] for a string [s]. *)
Definition StringToNumber (s : string) : JSNumber :=
  match trim (charsOf s) with
  | [] => Finite 0
  | t => match parseNumericLiteral t with Some v => v | None => NaN end
  end.

(** ** The two accesses of the game *)

(** [Number(localStorage.getItem('dinoHighScore')) || 0]; [getItem]
    returns [null] for an absent key and [Number(null)] is [0]. *)
Definition loadHighScore (stored : option string) : JSNumber :=
  orZero (match stored with None => Finite 0 | Some s => StringToNumber s end).

(** [localStorage.setItem('dinoHighScore', String(highScore))] *)
Definition saveHighScore (highScore : Z) : option string := Some (String_of_Z highScore).

(** The digits of a decimal of the Standard Library, most significant
    first, as [String(n)] prints them. *)
Fixpoint uint_digits (u : Decimal.uint) : list Z :=
  match u with
  | Decimal.Nil => []
  | Decimal.D0 u => 0%Z :: uint_digits u
  | Decimal.D1 u => 1%Z :: uint_digits u
  | Decimal.D2 u => 2%Z :: uint_digits u
  | Decimal.D3 u => 3%Z :: uint_digits u
  | Decimal.D4 u => 4%Z :: uint_digits u
  | Decimal.D5 u => 5%Z :: uint_digits u
  | Decimal.D6 u => 6%Z :: uint_digits u
  | Decimal.D7 u => 7%Z :: uint_digits u
  | Decimal.D8 u => 8%Z :: uint_digits u
  | Decimal.D9 u => 9%Z :: uint_digits u
  end.

(** The characters that can occur in a StringNumericLiteral. *)
Definition numericChar (c : ascii) : bool :=
  match digitValue c with Some _ => true | None => false end
  || existsb (Ascii.eqb c) (charsOf "+-.xXoOInfinity").

(** The values [Number] can produce besides [NaN]: the infinities and
    the finite values in the range of binary64 (here exact). *)
Definition representable (v : JSNumber) : Prop :=
  match v with
  | NaN => False
  | Finite q => q == 0 \/ (underflowBound < Qabs q /\ Qabs q < overflowBound)
  | _ => True
  end.

(** ** Numbers up to their value *)

#[export] Instance num_eq_Equivalence : Equivalence num_eq.
Proof.
  split.
  - intros []; simpl; auto; reflexivity.
  - intros [] []; simpl; auto; intros H; symmetry; exact H.
  - intros [] [] []; simpl; try tauto; intros H1 H2; now rewrite H1.
Qed.

#[export] Instance negate_Proper : Proper (num_eq ==> num_eq) negate.
Proof. intros [] [] H; simpl in *; auto; now rewrite H. Qed.

#[export] Instance roundDouble_Proper : Proper (Qeq ==> num_eq) roundDouble.
Proof.
  intros a b H; unfold roundDouble.
  rewrite (Qle_bool_Proper _ _ (Qeq_refl overflowBound) a b H),
    (Qle_bool_Proper a b H _ _ (Qeq_refl (- overflowBound))),
    (Qle_bool_Proper _ _ (Qabs_wd a b H) _ _ (Qeq_refl underflowBound)).
  repeat match goal with |- context [if ?c then _ else _] => destruct c end;
    simpl; auto; reflexivity.
Qed.

(** ** Rounding to binary64 *)

Lemma roundDouble_exact q :
  underflowBound < Qabs q -> Qabs q < overflowBound -> roundDouble q = Finite q.
Proof.
  intros H1 H2; apply Qabs_Qlt_condition in H2.
  unfold roundDouble; repeat qcase; try reflexivity; exfalso; lra.
Qed.

Lemma int_in_range z :
  z <> 0%Z -> (Z.abs z < 10 ^ 21)%Z ->
  underflowBound < Qabs (inject_Z z) /\ Qabs (inject_Z z) < overflowBound.
Proof.
  intros Hz Hb; change (Qabs (inject_Z z)) with (inject_Z (Z.abs z)); split.
  - apply Qlt_le_trans with (inject_Z 1); [reflexivity|].
    apply inject_Z_le_mono; lia.
  - unfold overflowBound; rewrite <- Zlt_Qlt.
    assert (10 ^ 21 < 2 ^ 1024 - 2 ^ 970)%Z by reflexivity; lia.
Qed.

Lemma roundDouble_int z :
  (Z.abs z < 10 ^ 21)%Z -> num_eq (roundDouble (inject_Z z)) (Finite (inject_Z z)).
Proof.
  intros Hb; destruct (Z.eq_dec z 0) as [->|Hz]; [vm_compute; reflexivity|].
  destruct (int_in_range z Hz Hb); rewrite roundDouble_exact by assumption; reflexivity.
Qed.

(** ** Scanning digits *)

Definition isDigitOf (base : Z) (c : ascii) : Prop := exists d, digitIn base c = Some d.

Lemma spanDigits_split base l ds rest :
  spanDigits base l = (ds, rest) ->
  exists pre, l = pre ++ rest /\ Forall (isDigitOf base) pre.
Proof.
  induction l as [|c l IH] in ds |- *; simpl.
  - intros [= <- <-]; exists []; auto.
  - destruct (digitIn base c) eqn:Ed.
    + destruct (spanDigits base l) as [ds' rest'] eqn:E; intros [= <- ->].
      destruct (IH ds' eq_refl) as (pre & -> & Hpre).
      exists (c :: pre); split; [reflexivity|]; constructor; [exists z|]; auto.
    + intros [= <- <-]; exists []; auto.
Qed.

Lemma spanDigits_uint u :
  spanDigits 10 (charsOf (NilEmpty.string_of_uint u)) = (uint_digits u, []).
Proof. unfold charsOf; induction u; simpl; rewrite ?IHu; reflexivity. Qed.

Lemma horner_acc u (acc : positive) :
  fold_left (fun a d => (a * 10 + d)%Z) (uint_digits u) (Zpos acc) =
  Zpos (Pos.of_uint_acc u acc).
Proof.
  induction u in acc |- *; cbn [uint_digits fold_left Pos.of_uint_acc];
    try reflexivity; rewrite <- IHu; f_equal; lia.
Qed.

Lemma horner_uint u : horner 10 (uint_digits u) = Z.of_N (N.of_uint u).
Proof.
  unfold horner, N.of_uint; induction u;
    cbn [uint_digits fold_left Pos.of_uint Z.mul Z.add Z.of_N];
    rewrite ?IHu, <- ?horner_acc; reflexivity.
Qed.

(** A decimal digit is none of the other characters of the grammar. *)
Lemma digit_neq c ch d : digitIn 10 c = Some d -> digitIn 10 ch = None -> Ascii.eqb c ch = false.
Proof. intros H1 H2; destruct (Ascii.eqb_spec c ch); congruence. Qed.

Lemma digit_not_ws c : isDigitOf 10 c -> isWhiteSpace c = false.
Proof.
  intros [d H]; destruct c as [[] [] [] [] [] [] [] []];
    vm_compute in H |- *; congruence.
Qed.

(** ** Trimming *)

Lemma dropWS_id l : Forall (fun c => isWhiteSpace c = false) l -> dropWS l = l.
Proof. intros [|c r Hc _]; simpl; [|rewrite Hc]; reflexivity. Qed.

Lemma trim_id l : Forall (fun c => isWhiteSpace c = false) l -> trim l = l.
Proof.
  intros H; unfold trim.
  rewrite (dropWS_id l H), (dropWS_id (rev l)) by now apply Forall_rev.
  apply rev_involutive.
Qed.

Lemma StringToNumber_literal s l :
  charsOf s = l -> l <> [] -> Forall (fun c => isWhiteSpace c = false) l ->
  StringToNumber s = match parseNumericLiteral l with Some v => v | None => NaN end.
Proof. intros E Hne Hws; unfold StringToNumber; rewrite E, trim_id by auto; now destruct l. Qed.

(** ** Decimal integer literals *)

Lemma parse_int_literal l ds :
  spanDigits 10 l = (ds, []) -> ds <> [] ->
  parseUnsignedDecimal l = Some (roundDouble (inject_Z (horner 10 ds) * 1)).
Proof.
  intros H Hne; unfold parseUnsignedDecimal.
  destruct (list_eq_dec ascii_dec l (charsOf "Infinity")) as [->|_];
    [vm_compute in H; discriminate|].
  rewrite H; cbv beta iota zeta; destruct ds as [|d ds]; [congruence|].
  rewrite app_nil_r; reflexivity.
Qed.

Lemma parseNumericLiteral_unsigned l :
  Forall (isDigitOf 10) l -> parseNumericLiteral l = parseUnsignedDecimal l.
Proof.
  intros [|c r [d Hd] Hr]; [reflexivity|]; unfold parseNumericLiteral.
  rewrite !(digit_neq c _ d Hd) by reflexivity.
  destruct (Ascii.eqb c "0"); [|reflexivity].
  destruct Hr as [|c' r' [d' Hd'] _]; [reflexivity|].
  rewrite !(digit_neq c' _ d' Hd') by reflexivity; reflexivity.
Qed.

Lemma parse_uint u :
  u <> Decimal.Nil -> (Z.of_N (N.of_uint u) < 10 ^ 21)%Z ->
  exists v, parseUnsignedDecimal (charsOf (NilEmpty.string_of_uint u)) = Some v /\
       num_eq v (Finite (inject_Z (Z.of_N (N.of_uint u)))).
Proof.
  intros Hu Hb; eexists; split.
  - apply parse_int_literal; [apply spanDigits_uint|]; destruct u; simpl; congruence.
  - rewrite Qmult_1_r, horner_uint; apply roundDouble_int; lia.
Qed.

Lemma uint_chars u :
  u <> Decimal.Nil ->
  charsOf (NilEmpty.string_of_uint u) <> [] /\
  Forall (isDigitOf 10) (charsOf (NilEmpty.string_of_uint u)).
Proof.
  intros Hu; destruct (spanDigits_split _ _ _ _ (spanDigits_uint u)) as (pre & E & H).
  rewrite app_nil_r in E; rewrite E; split; [|exact H].
  intros ->; pose proof (spanDigits_uint u) as S; rewrite E in S.
  destruct u; simpl in S; congruence.
Qed.

(** ** [String(n)] read back by [Number] *)

Lemma NilZero_uint u : u <> Decimal.Nil -> NilZero.string_of_uint u = NilEmpty.string_of_uint u.
Proof. destruct u; try reflexivity; congruence. Qed.

Lemma pos_uint p : N.of_uint (Pos.to_uint p) = Npos p.
Proof. exact (DecimalN.Unsigned.of_to (Npos p)). Qed.

Lemma pos_uint_nonnil p : Pos.to_uint p <> Decimal.Nil.
Proof. intros E; pose proof (pos_uint p) as H; rewrite E in H; discriminate. Qed.

Lemma digits_not_ws l : Forall (isDigitOf 10) l -> Forall (fun c => isWhiteSpace c = false) l.
Proof. apply Forall_impl, digit_not_ws. Qed.

(** A string of decimal digits reads as the number they spell. *)
Lemma digits_value (s : string) (ds : list Z) :
  spanDigits 10 (charsOf s) = (ds, []) -> ds <> [] -> (0 <= horner 10 ds < 10 ^ 21)%Z ->
  num_eq (StringToNumber s) (Finite (inject_Z (horner 10 ds))).
Proof.
  intros Sp Hne Hb.
  destruct (spanDigits_split _ _ _ _ Sp) as (pre & E & Hd); rewrite app_nil_r in E.
  rewrite <- E in Hd.
  assert (charsOf s <> []) as Hs by (intros Z0; rewrite Z0 in Sp; cbn in Sp; congruence).
  rewrite (StringToNumber_literal s _ eq_refl Hs (digits_not_ws _ Hd)).
  rewrite parseNumericLiteral_unsigned, (parse_int_literal _ _ Sp Hne) by exact Hd.
  rewrite Qmult_1_r; apply roundDouble_int; lia.
Qed.

Lemma String_of_pos_value p :
  (Zpos p < 10 ^ 21)%Z ->
  num_eq (StringToNumber (NilEmpty.string_of_uint (Pos.to_uint p))) (Finite (inject_Z (Zpos p)))
  /\ num_eq (StringToNumber (String "-" (NilEmpty.string_of_uint (Pos.to_uint p))))
       (Finite (inject_Z (Zneg p))).
Proof.
  intros Hb; pose proof (pos_uint_nonnil p) as Hu.
  destruct (uint_chars _ Hu) as [Hne Hd].
  destruct (parse_uint _ Hu) as (v & Hp & Hv); [rewrite pos_uint; exact Hb|].
  rewrite pos_uint in Hv; set (s0 := NilEmpty.string_of_uint (Pos.to_uint p)) in *; split.
  - rewrite (StringToNumber_literal _ _ eq_refl Hne (digits_not_ws _ Hd)).
    now rewrite parseNumericLiteral_unsigned, Hp.
  - rewrite (StringToNumber_literal (String "-" s0) ("-"%char :: charsOf s0) eq_refl
      ltac:(discriminate))
      by (constructor; [reflexivity | apply digits_not_ws, Hd]).
    change (parseNumericLiteral ("-"%char :: ?l)) with (option_map negate (parseUnsignedDecimal l)).
    rewrite Hp; cbn [option_map]; now rewrite Hv.
Qed.

Lemma String_of_Z_value n :
  (Z.abs n < 10 ^ 21)%Z -> num_eq (StringToNumber (String_of_Z n)) (Finite (inject_Z n)).
Proof.
  intros Hb; unfold String_of_Z; destruct n as [|p|p]; [vm_compute; reflexivity| |];
    cbn [Z.to_int NilZero.string_of_int]; rewrite NilZero_uint by apply pos_uint_nonnil;
    apply String_of_pos_value; exact Hb.
Qed.

#[export] Instance orZero_Proper : Proper (num_eq ==> num_eq) orZero.
Proof.
  intros [a| | |] [b| | |] H; simpl in *; try tauto; try reflexivity.
  assert (Qeq_bool a 0 = Qeq_bool b 0) as ->
    by (apply eq_true_iff_eq; rewrite !Qeq_bool_iff; split; intros; lra).
  destruct (Qeq_bool b 0); simpl; auto; reflexivity.
Qed.

Lemma orZero_finite q : num_eq (orZero (Finite q)) (Finite q).
Proof.
  simpl; destruct (Qeq_bool q 0) eqn:E; simpl; [|reflexivity].
  apply Qeq_bool_iff in E; now rewrite E.
Qed.

(** Loading from storage that is empty or holds what the game wrote
    gives the integer the session model of [Game] starts from. *)
Lemma load_refines (st : option Z) :
  (forall n, st = Some n -> (Z.abs n < 10 ^ 21)%Z) ->
  num_eq (loadHighScore (match st with Some n => saveHighScore n | None => None end))
         (Finite (inject_Z (Game.loadHighScore st))).
Proof.
  intros Hb; destruct st as [n|]; [|vm_compute; reflexivity].
  unfold loadHighScore, saveHighScore; simpl.
  rewrite (String_of_Z_value n (Hb n eq_refl)); apply orZero_finite.
Qed.

(** C23: a high score below [10^21] that the game saves is loaded back
    as the same number: [Number(String(n)) || 0] is [n]. *)
Theorem save_load_roundtrip n :
  (Z.abs n < 10 ^ 21)%Z -> num_eq (loadHighScore (saveHighScore n)) (Finite (inject_Z n)).
Proof. intros Hb; apply (load_refines (Some n)); intros m [= <-]; exact Hb. Qed.

Section Reload.
Context {G : Type} `{RandomSourceOk G}.

(** C24: in every reachable state of the session, reloading the page
    (loading the high score from the string the storage then holds)
    recovers the current high score, when it is below [10^21]. *)
Theorem reload_recovers_highScore (s : Game.Game G) :
  Game.reachable s -> (Z.abs (Game.highScore s) < 10 ^ 21)%Z ->
  num_eq (loadHighScore (match Game.storage s with Some n => saveHighScore n | None => None end))
         (Finite (inject_Z (Game.highScore s))).
Proof.
  intros R Hb; rewrite (GameInv.inv_store _ (GameInv.reachable_Inv _ R)) in *.
  apply load_refines; intros n E; rewrite E in Hb; exact Hb.
Qed.

End Reload.

(** ** Malformed strings and the range of loaded values *)

Lemma digit_numeric base c : isDigitOf base c -> numericChar c = true.
Proof.
  intros [d H]; unfold digitIn in H; unfold numericChar.
  destruct (digitValue c); [reflexivity|discriminate].
Qed.

Lemma eqb_numeric c ch : Ascii.eqb c ch = true -> numericChar ch = true -> numericChar c = true.
Proof. now intros ->%Ascii.eqb_eq. Qed.

Lemma dropWS_split l :
  exists p, l = p ++ dropWS l /\ Forall (fun c => isWhiteSpace c = true) p.
Proof.
  induction l as [|c l (p & E & H)]; [exists []; auto|]; simpl.
  destruct (isWhiteSpace c) eqn:W; [exists (c :: p); split; [now rewrite E at 1|auto]|].
  exists []; auto.
Qed.

Lemma trim_split l :
  exists p q, l = p ++ trim l ++ q /\
    Forall (fun c => isWhiteSpace c = true) p /\ Forall (fun c => isWhiteSpace c = true) q.
Proof.
  destruct (dropWS_split l) as (p & E1 & H1).
  destruct (dropWS_split (rev (dropWS l))) as (q & E2 & H2).
  exists p, (rev q); split; [|split; auto; now apply Forall_rev].
  unfold trim; rewrite E1 at 1; f_equal.
  rewrite <- rev_app_distr, <- E2, rev_involutive; reflexivity.
Qed.

Ltac split_digits :=
  repeat match goal with
  | H : spanDigits _ _ = (_, _) |- _ =>
      let p := fresh "pre" in let Hp := fresh "Hpre" in
      destruct (spanDigits_split _ _ _ _ H) as (p & -> & Hp); clear H
  end.

Ltac destruct_hyps :=
  repeat (match goal with
          | H : context [match ?x with _ => _ end] |- _ => destruct x eqn:?
          | H : context [if ?x then _ else _] |- _ => destruct x eqn:?
          | H : Some _ = Some _ |- _ => injection H as H
          | H : (_, _) = (_, _) |- _ => injection H as H
          end; cbn beta iota zeta in *; subst; try discriminate).

Ltac numeric_chars :=
  repeat match goal with
  | H : (?a =? ?b)%char = true |- _ => apply Ascii.eqb_eq in H; subst a
  | H : (_ || _)%bool = true |- _ => apply orb_true_iff in H as [H|H]
  end;
  repeat first [ apply Forall_nil | apply Forall_cons | apply Forall_app; split ];
  try reflexivity;
  match goal with
  | H : Forall (isDigitOf _) ?p |- Forall _ ?p =>
      refine (Forall_impl _ _ H); intros; eapply digit_numeric; eassumption
  | _ => try assumption
  end.

Lemma parseExponent_chars l e rest :
  parseExponent l = Some (e, rest) ->
  exists pre, l = pre ++ rest /\ Forall (fun c => numericChar c = true) pre.
Proof.
  unfold parseExponent; intros H; destruct_hyps; split_digits;
    rewrite ?app_comm_cons; eexists; split; try reflexivity; numeric_chars.
Qed.

Lemma parseUnsignedDecimal_chars l v :
  parseUnsignedDecimal l = Some v -> Forall (fun c => numericChar c = true) l.
Proof.
  unfold parseUnsignedDecimal; intros H; destruct_hyps.
  all: try (match goal with H : parseExponent _ = Some _ |- _ =>
              destruct (parseExponent_chars _ _ _ H) as (? & -> & ?) end).
  all: split_digits; numeric_chars.
Qed.

Lemma parseNonDecimal_chars base l v :
  parseNonDecimal base l = Some v -> Forall (fun c => numericChar c = true) l.
Proof. unfold parseNonDecimal; intros H; destruct_hyps; split_digits; numeric_chars. Qed.

Ltac literal_cases H :=
  unfold parseNumericLiteral in H;
  match type of H with
  | match ?l with _ => _ end = _ => destruct l as [|c r]
  end;
  repeat match type of H with
         | context [if ?x then _ else _] => destruct x eqn:?
         | context [match ?r with [] => _ | _ :: _ => _ end] => destruct r as [|c' r']
         end;
  try match type of H with
      | option_map _ ?x = Some _ =>
          destruct x eqn:?; [cbn [option_map] in H; injection H as <-|discriminate]
      end.

Lemma parseNumericLiteral_chars l v :
  parseNumericLiteral l = Some v -> Forall (fun c => numericChar c = true) l.
Proof.
  intros H; literal_cases H;
    repeat match goal with
    | H : parseUnsignedDecimal _ = Some _ |- _ => apply parseUnsignedDecimal_chars in H
    | H : parseNonDecimal _ _ = Some _ |- _ => apply parseNonDecimal_chars in H
    end; try assumption; numeric_chars.
Qed.

Lemma StringToNumber_malformed s c :
  In c (charsOf s) -> isWhiteSpace c = false -> numericChar c = false ->
  StringToNumber s = NaN.
Proof.
  intros Hin Hws Hnum; unfold StringToNumber.
  destruct (trim_split (charsOf s)) as (p & q & E & Hp & Hq).
  assert (In c (trim (charsOf s))) as Ht.
  { rewrite E in Hin; apply in_app_or in Hin as [Hin|Hin];
      [|apply in_app_or in Hin as [Hin|Hin]]; auto;
      [rewrite Forall_forall in Hp; apply Hp in Hin | rewrite Forall_forall in Hq; apply Hq in Hin];
      congruence. }
  destruct (trim (charsOf s)) as [|c0 t]; [contradiction|].
  destruct (parseNumericLiteral (c0 :: t)) eqn:P; [|reflexivity].
  apply parseNumericLiteral_chars in P; rewrite Forall_forall in P; apply P in Ht; congruence.
Qed.

Lemma roundDouble_repr q : representable (roundDouble q).
Proof.
  unfold roundDouble; repeat qcase; simpl; auto; [left; reflexivity|].
  right; split; [lra|apply Qabs_Qlt_condition; lra].
Qed.

Lemma negate_repr v : representable v -> representable (negate v).
Proof.
  destruct v; cbn [negate representable]; auto; intros [H|H]; [left; rewrite H; reflexivity|].
  right; pose proof (Qabs_opp q); destruct H; split; lra.
Qed.

Lemma parseUnsignedDecimal_repr l v : parseUnsignedDecimal l = Some v -> representable v.
Proof. unfold parseUnsignedDecimal; intros H; destruct_hyps; first [exact I | apply roundDouble_repr]. Qed.

Lemma parseNonDecimal_repr base l v : parseNonDecimal base l = Some v -> representable v.
Proof. unfold parseNonDecimal; intros H; destruct_hyps; apply roundDouble_repr. Qed.

Lemma parseNumericLiteral_repr l v : parseNumericLiteral l = Some v -> representable v.
Proof.
  intros H; literal_cases H; try apply negate_repr;
    repeat match goal with
    | H : parseUnsignedDecimal _ = Some _ |- _ => apply parseUnsignedDecimal_repr in H
    | H : parseNonDecimal _ _ = Some _ |- _ => apply parseNonDecimal_repr in H
    end; assumption.
Qed.

Lemma StringToNumber_repr s : StringToNumber s = NaN \/ representable (StringToNumber s).
Proof.
  unfold StringToNumber; destruct (trim (charsOf s)) as [|c t]; [right; left; reflexivity|].
  destruct (parseNumericLiteral (c :: t)) eqn:P; [right; eapply parseNumericLiteral_repr, P|auto].
Qed.

Lemma orZero_repr v : v = NaN \/ representable v -> representable (orZero v).
Proof.
  intros [->|H]; [left; reflexivity|].
  destruct v as [q| | |]; simpl in *; try tauto.
  destruct (Qeq_bool q 0); simpl; auto; left; reflexivity.
Qed.

(** C25: a stored string holding a character that is neither white
    space nor part of the numeric grammar reads as [NaN], and the
    high score the game loads from it is [0]. *)
Theorem malformed_loads_zero s c :
  In c (charsOf s) -> isWhiteSpace c = false -> numericChar c = false ->
  StringToNumber s = NaN /\ loadHighScore (Some s) = Finite 0.
Proof.
  intros Hin Hws Hnum; pose proof (StringToNumber_malformed s c Hin Hws Hnum) as E.
  split; [exact E|]; unfold loadHighScore; rewrite E; reflexivity.
Qed.

(** C26: whatever the storage holds, the loaded high score is never
    [NaN]: it is an infinity, [0], or a finite value inside the range
    of binary64. *)
Theorem loadHighScore_representable st : representable (loadHighScore st).
Proof. destruct st; apply orZero_repr; [apply StringToNumber_repr|right; left; reflexivity]. Qed.

(** A stored value the game never writes is loaded as it reads: a
    stored [Infinity] or [1e400] gives an infinite high score that no
    score can beat, and [-5] or [2.5] a high score that is not a
    non-negative integer. *)
Example stored_values_loaded_as_is :
  loadHighScore (Some "Infinity"%string) = PosInfinity /\
  loadHighScore (Some "1e400"%string) = PosInfinity /\
  loadHighScore (Some "-5"%string) = Finite (-5) /\
  num_eq (loadHighScore (Some " 2.5 "%string)) (Finite (5 # 2)).
Proof. vm_compute; repeat split; reflexivity. Qed.

(** ** Witnesses *)

Lemma save_load_roundtrip_witness :
  (Z.abs (-1234) < 10 ^ 21)%Z /\
  num_eq (loadHighScore (saveHighScore (-1234))) (Finite (inject_Z (-1234))).
Proof. split; [lia | apply (save_load_roundtrip (-1234)); lia]. Defined.

Lemma reload_recovers_highScore_witness :
  let s := Game.run GameInv.demo_events (Game.init (MkLcg 1) (Some 42%Z)) in
  num_eq (loadHighScore (match Game.storage s with Some n => saveHighScore n | None => None end))
         (Finite (inject_Z (Game.highScore s))).
Proof.
  apply reload_recovers_highScore;
    [apply Game.run_reachable, Game.reachable_init | vm_compute; reflexivity].
Defined.

Lemma malformed_loads_zero_witness :
  In "#"%char (charsOf "12#") /\ isWhiteSpace "#" = false /\ numericChar "#" = false /\
  StringToNumber "12#" = NaN /\ loadHighScore (Some "12#"%string) = Finite 0.
Proof.
  split; [simpl; tauto|]; split; [reflexivity|]; split; [reflexivity|].
  apply (malformed_loads_zero "12#" "#"); [simpl; tauto | reflexivity | reflexivity].
Defined.

End Storage.
