(* ===== verification/Order.v ===== *)
(** * Order of the obstacle array (src/index.tsx, lines 311-341 and 424-432)

    The spec's data model (section 3) says the live obstacles are kept in
    spawn order with the front the oldest and left-most.  The code never
    sorts: [spawnObstacle] pushes at the right edge, every frame moves each
    obstacle left by [gameSpeed * speedMultiplier] and the filter drops the
    retired ones.  Birds move 1.2 times as fast as ground obstacles, so the
    order is kept only because a bird is spawned far enough behind the
    obstacle before it: this file proves that the gap policy of
    [spawnObstacle] ensures that a bird reaches the position of an earlier
    obstacle only after that obstacle has left the field.

    [pairOk a b] is the invariant for an obstacle [a] spawned before [b]:
    [a] is left of [b], and when [b] is a bird the distance still exceeds
    a fifth of [a]'s right edge, which is the ground the bird gains while
    [a] reaches the left border. *)

From Stdlib Require Import QArith Lqa ZArith Lia List Bool Sorted String.
From S2P Require Import Prelude Config Random Input Cat Obstacle Spawn Game GameInv.
Import ListNotations.

Open Scope Q_scope.
Open Scope game_scope.

Module Order.

Import Obstacle Game GameInv.

Definition pairOk (a b : Obstacle) : Prop :=
  x a < x b /\ (type b = BIRD -> x a + (1 # 5) * (x a + w a) < x b).

Definition ordered {G : Type} (s : Game G) : Prop := ForallOrdPairs pairOk (obstacles s).

(** ** One obstacle pair *)

Lemma geometry_width (o : Obstacle) : geometry_ok o = true -> w o <= 60.
Proof.
  intros Gm%geometry_ok_iff; unfold Geometry in Gm; destruct (type o).
  - destruct Gm as ([_ Hg] & Hw & _).
    assert (inject_Z (groupSize o) <= 3) by (change 3 with (inject_Z 3); apply inject_Z_le_mono; lia).
    lra.
  - destruct Gm as ([_ Hg] & Hw & _).
    assert (inject_Z (groupSize o) <= 2) by (change 2 with (inject_Z 2); apply inject_Z_le_mono; lia).
    lra.
  - destruct Gm as (_ & Hw & _); lra.
Qed.

Lemma update_survivor (v : Q) (a : Obstacle) :
  markedForDeletion (update v a) = false -> 0 <= x (update v a) + w a.
Proof.
  intros M; destruct (Qlt_le_dec (x (update v a) + w a) 0) as [L|L]; auto.
  assert (markedForDeletion (update v a) = true) by (apply update_marked; auto); congruence.
Qed.

(** Both obstacles move; the pair stays ordered as long as the earlier
    one survives the frame. *)
Lemma pair_update (v : Q) (a b : Obstacle) :
  0 <= v -> pairOk a b -> markedForDeletion (update v a) = false ->
  pairOk (update v a) (update v b).
Proof.
  intros Hv [Hx Hb] M; pose proof (update_survivor v a M) as S.
  destruct (update_fields v a) as (_ & Wa & _ & Ta & _ & Xa).
  destruct (update_fields v b) as (_ & Wb & _ & Tb & _ & Xb).
  unfold pairOk; rewrite Xa, Xb, Wa, Tb; rewrite Xa in S.
  destruct (type b); [| | specialize (Hb eq_refl)]; destruct (type a);
    cbn [speedMultiplier] in *; split; intros; try discriminate; lra.
Qed.

(** ** The frame loop *)

Lemma spawn_ordered {G' : Type} `{RandomSourceOk G'} (speed : Q) (obs : list Obstacle) (g : G') :
  5 <= speed -> ForallOrdPairs pairOk obs -> Forall (fun o => geometry_ok o = true) obs ->
  ForallOrdPairs pairOk (fst (Spawn.spawnObstacle speed obs g)).
Proof.
  intros Sp O Gm.
  destruct (Spawn.spawn_result speed obs g) as [-> | (o & rand & -> & Xo & _ & _ & _ & Gap)];
    auto.
  apply ForallOrdPairs_snoc; auto; apply Forall_forall; intros a Ia.
  destruct (lastOpt obs) as [z|] eqn:L; [|destruct obs; [destruct Ia|exfalso; exact (lastOpt_cons _ _ L)]].
  specialize (Gap z eq_refl); rewrite Forall_forall in Gm.
  pose proof (geometry_width a (Gm a Ia)) as Wa.
  assert (x a <= x z) by (destruct (ForallOrdPairs_lastOpt _ _ _ _ O L Ia) as [->|[P _]]; lra).
  unfold pairOk; rewrite Xo; unfold GAME_WIDTH in *; split; [|intros _]; lra.
Qed.

Section Frames.
Context {G : Type} `{RandomSourceOk G}.

Lemma speed_lower (s : Game G) : Inv s -> 5 <= gameSpeed s.
Proof.
  intros I; pose proof (inv_speed s I) as Sp; pose proof (inv_frame s I) as Fr.
  assert (0 <= inject_Z (frame s / 500))
    by (change 0 with (inject_Z 0); apply inject_Z_le_mono, Z.div_pos; lia).
  lra.
Qed.

Lemma gameLoop_ordered (s : Game G) :
  Cat.Cat_wf (cat s) -> Forall (obs_ok (frame s)) (obstacles s) -> 5 <= gameSpeed s ->
  ordered s -> ordered (gameLoop s).
Proof.
  intros C O Sp Ord; destruct (isPlaying s) eqn:Pl; [|unfold gameLoop; rewrite Pl; exact Ord].
  assert (F : Forall (fun o => markedForDeletion o = false) (obstacles s))
    by (eapply Forall_impl; [|exact O]; intros o (_ & M & _); exact M).
  destruct (gameLoop_fields s Pl C F) as (_ & _ & Ob & _); unfold ordered; rewrite Ob.
  apply ForallOrdPairs_filter_map with (R := pairOk).
  - apply spawn_ordered; auto; eapply Forall_impl; [|exact O]; intros o (Gm & _); exact Gm.
  - intros a b _ _ P Ma _; apply pair_update; [lra | exact P | now apply negb_true_iff in Ma].
Qed.

Lemma handle_ordered (e : Event) (s : Game G) : Inv s -> ordered s -> ordered (handle e s).
Proof.
  intros I Ord; destruct e as [code|code|]; cbn [handle].
  - unfold keydown, resetGame, ordered in *; cbn.
    destruct (isGameOver s), (isPlaying s), (isStartCode code); cbn; auto; constructor.
  - exact Ord.
  - destruct (pending s) as [|n]; [exact Ord|].
    apply gameLoop_ordered; simpl_withPending;
      [apply (inv_cat s I) | apply (inv_obs s I) | apply (speed_lower s I) | exact Ord].
Qed.

Lemma reachable_pairs (s : Game G) : reachable s -> ordered s.
Proof.
  induction 1 as [g st | e s R IH]; [unfold ordered; cbn; constructor|].
  apply handle_ordered; [apply reachable_Inv, R | exact IH].
Qed.

(** C27: in every reachable state the obstacle array is sorted from left
    to right: the front is the oldest and the left-most obstacle, and no
    bird overtakes an obstacle spawned before it (spec section 3). *)
Theorem reachable_sorted (s : Game G) :
  reachable s -> StronglySorted (fun a b => x a < x b) (obstacles s).
Proof.
  intros R; pose proof (reachable_pairs s R) as O; unfold ordered in O.
  induction O as [|a l Ha Hl IH]; constructor; auto.
  eapply Forall_impl; [|exact Ha]; intros b [Hx _]; exact Hx.
Qed.

End Frames.

(** A start and 140 frames: two cacti, at [x = 100] and [x = 455]. *)
Definition two_cacti_events : list Event :=
  KeyDown "Space"%string :: KeyUp "Space"%string :: repeat AnimationFrame 140.

Lemma reachable_sorted_witness :
  StronglySorted (fun a b => x a < x b)
    (obstacles (run two_cacti_events (init (MkLcg 1) None))).
Proof. apply reachable_sorted, run_reachable, reachable_init. Defined.

End Order.
