(* ===== verification/Fairness.v ===== *)
(** * Jumping over ground obstacles (src/index.tsx, lines 57-90, 208-216, 370-382)

    Each frame of [gameLoop] updates the cat, then every obstacle, and
    then tests the two with [checkCollision].  This file follows one
    ground obstacle (cactus or trash can) and a cat that starts on the
    ground with a jump key held and the crouch key released, at the
    starting speed [5]: the cat's trajectory is then a fixed sequence of
    positions, while the obstacle is any obstacle of ground geometry
    whose left edge is at [x0].

    The jump clears the obstacle whenever [105 <= x0 <= 169]: before the
    fifth frame the obstacle is still right of the cat, from the fifth to
    the 33rd frame the cat's feet are at least 46 pixels above the
    ground, and from the 34th frame on the obstacle is left of the cat.
    The window is 65 pixels, 13 frames at speed 5. *)

From Stdlib Require Import QArith Lqa ZArith Lia List Bool.
From S2P Require Import Prelude Config Input Cat Obstacle Collision.
Import ListNotations.

Open Scope Q_scope.
Open Scope game_scope.

Module Fairness.

(** The key state of a held Space bar. *)
Definition jumpKeys : Keys := mkKeys true false false.

(** The cat's position [j] frames after the jump key is pressed. *)
Definition jumpTrajectory (j : nat) : Cat.Cat := Cat.iter (repeat jumpKeys j) Cat.new_Cat.

(** From frame 5 to frame 33 the cat's feet are at most at [y = 129]. *)
Definition highFrames : bool :=
  forallb (fun j => Qle_bool (Cat.y (jumpTrajectory j) + Cat.h (jumpTrajectory j)) 129)
    (seq 5 29).

(** ** The cat *)

(** [Cat.update] reads only the crouch key and the jump keys. *)
Lemma update_keys (k k' : Keys) (c : Cat.Cat) :
  ArrowDown k = ArrowDown k' -> jumpHeld k = jumpHeld k' -> Cat.update k c = Cat.update k' c.
Proof. intros D J; unfold Cat.update, Cat.crouch, Cat.jump; rewrite D, J; reflexivity. Qed.

Lemma iter_jump_keys (ks : list Keys) (c : Cat.Cat) :
  Forall (fun k => jumpHeld k = true /\ ArrowDown k = false) ks ->
  Cat.iter ks c = Cat.iter (repeat jumpKeys (length ks)) c.
Proof.
  revert c; induction ks as [|k ks IH]; intros c F; [reflexivity|].
  inversion F as [|? ? [J D] F']; subst; cbn [Cat.iter repeat length].
  rewrite (update_keys k jumpKeys c) by (rewrite ?D, ?J; reflexivity); apply IH, F'.
Qed.

Lemma highFrames_ok : highFrames = true.
Proof. vm_compute; reflexivity. Qed.

Lemma high_frame (j : nat) :
  (5 <= j <= 33)%nat -> Cat.y (jumpTrajectory j) + Cat.h (jumpTrajectory j) <= 129.
Proof.
  intros Hj; pose proof highFrames_ok as H; unfold highFrames in H.
  rewrite forallb_forall in H; apply Qle_bool_iff, H, in_seq; lia.
Qed.

Lemma trajectory_wf (j : nat) : Cat.Cat_wf (jumpTrajectory j).
Proof. apply Cat.iter_wf, Cat.new_Cat_wf. Qed.

(** ** The obstacle *)

Lemma iter_update (v : Q) (j : nat) (o : Obstacle.Obstacle) :
  let o' := Nat.iter j (Obstacle.update v) o in
  Obstacle.x o' == Obstacle.x o - inject_Z (Z.of_nat j) * v * Obstacle.speedMultiplier (Obstacle.type o) /\
  Obstacle.y o' = Obstacle.y o /\ Obstacle.w o' = Obstacle.w o /\ Obstacle.h o' = Obstacle.h o /\
  Obstacle.type o' = Obstacle.type o.
Proof.
  induction j as [|j IH]; cbv zeta in *.
  - change (Nat.iter 0 (Obstacle.update v) o) with o.
    split; [change (inject_Z (Z.of_nat 0)) with 0; ring | repeat split].
  - rewrite Nat.iter_succ; destruct IH as (X & Y & W & H & T).
    destruct (Obstacle.update_fields v (Nat.iter j (Obstacle.update v) o)) as (Y' & W' & H' & T' & _ & X').
    rewrite Y', W', H', T', X', T, X; repeat split; auto.
    rewrite Nat2Z.inj_succ, <- Z.add_1_r, inject_Z_plus; change (inject_Z 1) with 1; ring.
Qed.

Lemma ground_obstacle (o : Obstacle.Obstacle) :
  Obstacle.geometry_ok o = true -> Obstacle.type o <> Obstacle.BIRD ->
  Obstacle.speedMultiplier (Obstacle.type o) == 1 /\ Obstacle.w o <= 60 /\ 120 < Obstacle.y o.
Proof.
  intros Gm%Obstacle.geometry_ok_iff NB; unfold Obstacle.Geometry, GROUND_Y in Gm.
  destruct (Obstacle.type o); [| |contradiction]; cbn [Obstacle.speedMultiplier].
  - destruct Gm as ([_ Hg] & Hw & _ & Hh & Hy).
    assert (inject_Z (Obstacle.groupSize o) <= 3)
      by (change 3 with (inject_Z 3); apply inject_Z_le_mono; lia).
    repeat split; lra.
  - destruct Gm as ([_ Hg] & Hw & _ & Hh & Hy).
    assert (inject_Z (Obstacle.groupSize o) <= 2)
      by (change 2 with (inject_Z 2); apply inject_Z_le_mono; lia).
    repeat split; lra.
Qed.

(** ** The three failing halves of the test *)

Lemma checkCollision_left (c : Cat.Cat) (o : Obstacle.Obstacle) :
  Obstacle.x o + Obstacle.w o - 4 <= Cat.x c + 5 -> checkCollision c o = false.
Proof.
  intros A; unfold checkCollision.
  replace (Cat.x c + 5 <? Obstacle.x o + Obstacle.w o - 4) with false
    by (symmetry; apply Qltb_false_iff; exact A); reflexivity.
Qed.

Lemma checkCollision_right (c : Cat.Cat) (o : Obstacle.Obstacle) :
  Cat.x c + Cat.w c - 5 <= Obstacle.x o + 4 -> checkCollision c o = false.
Proof.
  intros A; unfold checkCollision.
  replace (Obstacle.x o + 4 <? Cat.x c + Cat.w c - 5) with false
    by (symmetry; apply Qltb_false_iff; exact A); rewrite andb_false_r; reflexivity.
Qed.

Lemma checkCollision_below (c : Cat.Cat) (o : Obstacle.Obstacle) :
  Cat.y c + Cat.h c - 5 <= Obstacle.y o + 4 -> checkCollision c o = false.
Proof.
  intros A; unfold checkCollision.
  replace (Obstacle.y o + 4 <? Cat.y c + Cat.h c - 5) with false
    by (symmetry; apply Qltb_false_iff; exact A); rewrite andb_false_r; reflexivity.
Qed.

(** C28: at the starting speed [5], a jump started by a standing cat
    clears every cactus and trash can whose left edge is at [x0], with
    [105 <= x0 <= 169], in the frame the jump key goes down: while the
    jump key stays held and the crouch key released, no later frame
    registers a collision between the two. *)
Theorem standing_jump_clears (ks : list Keys) (o : Obstacle.Obstacle) :
  Forall (fun k => jumpHeld k = true /\ ArrowDown k = false) ks ->
  Obstacle.geometry_ok o = true -> Obstacle.type o <> Obstacle.BIRD ->
  105 <= Obstacle.x o <= 169 ->
  checkCollision (Cat.iter ks Cat.new_Cat) (Nat.iter (length ks) (Obstacle.update 5) o) = false.
Proof.
  intros K Gm NB Hx; rewrite iter_jump_keys by exact K.
  fold (jumpTrajectory (length ks)); set (j := length ks).
  destruct (ground_obstacle o Gm NB) as (M & W & Y).
  destruct (iter_update 5 j o) as (X' & Y' & W' & _); rewrite M in X'.
  pose proof (trajectory_wf j) as C; pose proof (Cat.wf_x _ C); pose proof (Cat.wf_w _ C).
  unfold CAT_X, CAT_WIDTH in *.
  destruct (le_lt_dec j 4) as [J|J]; [|destruct (le_lt_dec 34 j) as [J'|J']].
  - apply checkCollision_right.
    assert (inject_Z (Z.of_nat j) <= 4)
      by (change 4 with (inject_Z (Z.of_nat 4)); apply inject_Z_le_mono; lia).
    lra.
  - apply checkCollision_left; rewrite W'.
    assert (34 <= inject_Z (Z.of_nat j))
      by (change 34 with (inject_Z (Z.of_nat 34)); apply inject_Z_le_mono; lia).
    lra.
  - apply checkCollision_below; rewrite Y'.
    pose proof (high_frame j ltac:(lia)); lra.
Qed.

(** The lower end of the window is tight: a cactus of three members,
    54 pixels tall, whose left edge is at [104] when the jump starts,
    hits the cat in the fourth frame. *)
Example jump_window_tight :
  checkCollision (jumpTrajectory 4)
    (Nat.iter 4 (Obstacle.update 5)
       (Obstacle.mkObstacle 104 121 60 54 Obstacle.CACTUS false 3)) = true.
Proof. vm_compute; reflexivity. Qed.

Lemma standing_jump_clears_witness :
  checkCollision (Cat.iter (repeat jumpKeys 20) Cat.new_Cat)
    (Nat.iter (length (repeat jumpKeys 20)) (Obstacle.update 5)
       (Obstacle.mkObstacle 150 135 20 40 Obstacle.CACTUS false 1)) = false.
Proof.
  apply standing_jump_clears.
  - apply Forall_forall; intros k Hk; apply repeat_spec in Hk; subst; split; reflexivity.
  - vm_compute; reflexivity.
  - discriminate.
  - cbn; split; lra.
Defined.

End Fairness.
