(* ===== verification/Render.v ===== *)
(** * Rendering (src/index.tsx, lines 92-152, 218-306, 384-390 and the
    drawing statements of [gameLoop] and [init])

    The program draws on a 2D canvas context [ctx].  The context is a
    small state machine: the current fill style, stroke style, line
    width, font, text alignment and path, and the picture painted so
    far.  [Canvas] is that state, with the picture as the list of
    painting operations in the order they happen ([Paint]); each method
    of the context the program calls is a [Draw], a function on
    [Canvas]:

    - [fillRect], [clearRect], [fill], [stroke] and [fillText] append a
      [Paint] built from their arguments and the current styles;
    - [beginPath], [moveTo] and [lineTo] build the current path as a list
      of subpaths ([lineTo] without a subpath starts one, as the HTML
      canvas does);
    - the property assignments [ctx.fillStyle = ...] and the like are the
      setters [setFillStyle] ...

    A drawing function is the sequence [seqD] of the calls of its body, in
    source order, with the source's conditionals; a [for] loop over
    [i < n] is [forLoop].  Colours are kept as the strings the code
    writes.  The drawing code runs only when [ctx] exists ([if (!ctx)
    return] guards it), which is the case once [init] has found the
    canvas. *)

From Stdlib Require Import QArith Lqa ZArith Lia List Bool Ascii String DecimalString.
From S2P Require Import Prelude Config Random Input Cat Obstacle Collision Spawn Game Storage.
Import ListNotations.

Open Scope Q_scope.
Open Scope game_scope.
Open Scope list_scope.

Module Render.

(** ** The canvas context *)

Inductive Paint : Type :=
| PRect (color : string) (x y w h : Q)
| PFill (color : string) (subpaths : list (list (Q * Q)))
| PStroke (color : string) (width : Q) (subpaths : list (list (Q * Q)))
| PText (color font align text : string) (x y : Q)
| PClear (x y w h : Q).

Record Canvas : Type := mkCanvas {
  fillStyle : string;
  strokeStyle : string;
  lineWidth : Q;
  font : string;
  textAlign : string;
  path : list (list (Q * Q));
  painted : list Paint
}.

Definition Draw : Type := Canvas -> Canvas.

Fixpoint seqD (ds : list Draw) : Draw :=
  fun cv => match ds with [] => cv | d :: ds' => seqD ds' (d cv) end.

(** [for (let i = 0; i < n; i++) body(i)] *)
Definition forLoop (n : nat) (body : nat -> Draw) : Draw := seqD (map body (seq 0 n)).

Definition paint (p : Canvas -> Paint) : Draw :=
  fun cv => mkCanvas (fillStyle cv) (strokeStyle cv) (lineWidth cv) (font cv)
              (textAlign cv) (path cv) (painted cv ++ [p cv]).

Definition fillRect (x y w h : Q) : Draw := paint (fun cv => PRect (fillStyle cv) x y w h).
Definition clearRect (x y w h : Q) : Draw := paint (fun _ => PClear x y w h).
Definition fill : Draw := paint (fun cv => PFill (fillStyle cv) (path cv)).
Definition stroke : Draw := paint (fun cv => PStroke (strokeStyle cv) (lineWidth cv) (path cv)).
Definition fillText (text : string) (x y : Q) : Draw :=
  paint (fun cv => PText (fillStyle cv) (font cv) (textAlign cv) text x y).

Definition setPath (f : list (list (Q * Q)) -> list (list (Q * Q))) : Draw :=
  fun cv => mkCanvas (fillStyle cv) (strokeStyle cv) (lineWidth cv) (font cv)
              (textAlign cv) (f (path cv)) (painted cv).

Fixpoint appendToLast (p : Q * Q) (sub : list (list (Q * Q))) : list (list (Q * Q)) :=
  match sub with
  | [] => [[p]]
  | [s] => [s ++ [p]]
  | s :: rest => s :: appendToLast p rest
  end.

Definition beginPath : Draw := setPath (fun _ => []).
Definition moveTo (x y : Q) : Draw := setPath (fun sub => sub ++ [[(x, y)]]).
Definition lineTo (x y : Q) : Draw := setPath (appendToLast (x, y)).

Definition setFillStyle (c : string) : Draw :=
  fun cv => mkCanvas c (strokeStyle cv) (lineWidth cv) (font cv) (textAlign cv) (path cv) (painted cv).
Definition setStrokeStyle (c : string) : Draw :=
  fun cv => mkCanvas (fillStyle cv) c (lineWidth cv) (font cv) (textAlign cv) (path cv) (painted cv).
Definition setLineWidth (lw : Q) : Draw :=
  fun cv => mkCanvas (fillStyle cv) (strokeStyle cv) lw (font cv) (textAlign cv) (path cv) (painted cv).
Definition setFont (f : string) : Draw :=
  fun cv => mkCanvas (fillStyle cv) (strokeStyle cv) (lineWidth cv) f (textAlign cv) (path cv) (painted cv).
Definition setTextAlign (a : string) : Draw :=
  fun cv => mkCanvas (fillStyle cv) (strokeStyle cv) (lineWidth cv) (font cv) a (path cv) (painted cv).

(** ** [Cat.draw()] (lines 92-152) *)

Definition drawCat (frame : Z) (c : Cat.Cat) : Draw :=
  let x := Cat.x c in let y := Cat.y c in let w := Cat.w c in let h := Cat.h c in
  let runAnim := ((frame / 6) mod 2)%Z in
  seqD [
    setFillStyle "#333";
    fillRect x y w h;
    (if negb (Cat.isCrouching c) then
       seqD [beginPath; moveTo (x + 5) y; lineTo (x + 10) (y - 8); lineTo (x + 15) y; fill;
             beginPath; moveTo (x + w - 15) y; lineTo (x + w - 10) (y - 8); lineTo (x + w - 5) y;
             fill]
     else seqD [fillRect (x + 5) (y - 3) 8 3; fillRect (x + w - 13) (y - 3) 8 3]);
    fillRect (x - 5) (y + 10) 5 5;
    fillRect (x - 8) (y + 5) 5 5;
    setFillStyle "#FFD700";
    (if negb (Cat.isCrouching c) then
       seqD [fillRect (x + w - 12) (y + 10) 3 3; fillRect (x + w - 22) (y + 10) 3 3]
     else seqD [fillRect (x + w - 12) (y + 5) 3 3; fillRect (x + w - 22) (y + 5) 3 3]);
    setFillStyle "#333";
    (if Cat.isGrounded c then
       if (runAnim =? 0)%Z then seqD [fillRect (x + 5) (y + h) 6 4; fillRect (x + w - 11) (y + h) 6 4]
       else seqD [fillRect x (y + h) 6 4; fillRect (x + w - 6) (y + h) 6 4]
     else seqD [fillRect (x + 10) (y + h - 5) 5 5; fillRect (x + w - 15) (y + h - 5) 5 5])
  ].

(** ** [Obstacle.draw()] and its three cases (lines 218-306) *)

Definition drawCactus (o : Obstacle.Obstacle) : Draw :=
  let singleW := Obstacle.w o / inject_Z (Obstacle.groupSize o) in
  seqD [
    setFillStyle "#2E8B57";
    forLoop (Z.to_nat (Obstacle.groupSize o)) (fun i =>
      let offsetX := Obstacle.x o + inject_Z (Z.of_nat i) * singleW in
      let currentH := Obstacle.h o in
      seqD [fillRect (offsetX + singleW / 3) (Obstacle.y o) (singleW / 3) currentH;
            fillRect offsetX (Obstacle.y o + 10) (singleW / 3) 5;
            fillRect offsetX (Obstacle.y o + 5) 5 10;
            fillRect (offsetX + (singleW / 3) * 2) (Obstacle.y o + 15) (singleW / 3) 5;
            fillRect (offsetX + singleW - 5) (Obstacle.y o + 8) 5 12])
  ].

Definition drawTrashCan (o : Obstacle.Obstacle) : Draw :=
  let singleW := Obstacle.w o / inject_Z (Obstacle.groupSize o) in
  seqD [
    setFillStyle "#778899";
    forLoop (Z.to_nat (Obstacle.groupSize o)) (fun i =>
      let offsetX := Obstacle.x o + inject_Z (Z.of_nat i) * singleW in
      let drawW := singleW - 2 in
      seqD [fillRect offsetX (Obstacle.y o + 5) drawW (Obstacle.h o - 5);
            setFillStyle "#666";
            fillRect (offsetX - 2) (Obstacle.y o) (drawW + 4) 5;
            setFillStyle "#555";
            fillRect (offsetX + 5) (Obstacle.y o + 10) (drawW - 10) 2;
            fillRect (offsetX + 5) (Obstacle.y o + 18) (drawW - 10) 2;
            setFillStyle "#778899"])
  ].

Definition drawBird (frame : Z) (o : Obstacle.Obstacle) : Draw :=
  let x := Obstacle.x o in let y := Obstacle.y o in
  let flap := ((frame / 10) mod 2)%Z in
  seqD [
    setFillStyle "#444";
    fillRect x (y + 10) (Obstacle.w o) 10;
    fillRect x (y + 5) 10 10;
    setFillStyle "#FFA500";
    fillRect (x - 5) (y + 8) 5 4;
    setFillStyle "#444";
    (if (flap =? 0)%Z then
       seqD [beginPath; moveTo (x + 15) (y + 10); lineTo (x + 25) (y - 5); lineTo (x + 35) (y + 10); fill]
     else
       seqD [beginPath; moveTo (x + 15) (y + 15); lineTo (x + 25) (y + 25); lineTo (x + 35) (y + 15); fill])
  ].

Definition drawObstacle (frame : Z) (o : Obstacle.Obstacle) : Draw :=
  match Obstacle.type o with
  | Obstacle.BIRD => drawBird frame o
  | Obstacle.TRASH_CAN => drawTrashCan o
  | Obstacle.CACTUS => drawCactus o
  end.

(** ** [drawText] (lines 384-390) and the score line (line 443) *)

(** The font string [${size} "Courier New"]. *)
Definition courierFont (size : string) : string :=
  (size ++ " " ++ String "034" ("Courier New" ++ String "034" EmptyString))%string.

Definition drawText (text : string) (x y : Q) (size align color : string) : Draw :=
  seqD [setFillStyle color; setFont (courierFont size); setTextAlign align; fillText text x y].

(** [s.padStart(target, c)] for a one-character pad string. *)
Definition padStart (target : nat) (c : ascii) (s : string) : string :=
  (string_of_list_ascii (repeat c (target - String.length s)) ++ s)%string.

(** [`HI ${String(highScore).padStart(5, '0')}  ${String(score).padStart(5, '0')}`] *)
Definition hudText (highScore score : Z) : string :=
  ("HI " ++ padStart 5 "0" (Storage.String_of_Z highScore) ++ "  " ++
   padStart 5 "0" (Storage.String_of_Z score))%string.

(** The ground line, drawn first in every frame (lines 405-413). *)
Definition drawGround : Draw :=
  seqD [clearRect 0 0 GAME_WIDTH GAME_HEIGHT;
        beginPath; moveTo 0 GROUND_Y; lineTo GAME_WIDTH GROUND_Y;
        setStrokeStyle "#535353"; setLineWidth 2; stroke].

(** ** The frame loop with its drawing (lines 403-456) *)

Section Frame.
Context {G : Type} `{RandomSource G}.

(** [obstacles.forEach(obs => { obs.update(); obs.draw(); if
    (checkCollision(cat, obs)) isGameOver = true; })]: the obstacles are
    drawn with the frame counter before its increment. *)
Fixpoint updateAllDraw (frame : Z) (speed : Q) (c : Cat.Cat) (obs : list Obstacle.Obstacle)
    (over : bool) (cv : Canvas) : list Obstacle.Obstacle * bool * Canvas :=
  match obs with
  | [] => ([], over, cv)
  | o :: rest =>
      let o' := Obstacle.update speed o in
      let cv' := drawObstacle frame o' cv in
      let over' := if checkCollision c o' then true else over in
      let '(rest', over'', cv'') := updateAllDraw frame speed c rest over' cv' in
      (o' :: rest', over'', cv'')
  end.

(** [gameLoop()] with its drawing: the ground line first; an idle game
    draws the cat and the start prompt and stops; a running game draws
    every obstacle after its update, then the cat with the incremented
    frame counter, the score line with the high score as it was before
    this frame, and at game over the two closing texts. *)
Definition gameLoopDraw (s : Game.Game G) (cv : Canvas) : Game.Game G * Canvas :=
  let cv0 := drawGround cv in
  if negb (Game.isPlaying s) then
    (s, seqD [drawCat (Game.frame s) (Game.cat s);
              drawText "Press Space to Start" (GAME_WIDTH / 2) (GAME_HEIGHT / 2 - 10)
                "20px" "center" "#535353"] cv0)
  else
    let cat' := Cat.update (Game.keys s) (Game.cat s) in
    let (obs1, g1) := Spawn.spawnObstacle (Game.gameSpeed s) (Game.obstacles s) (Game.rng s) in
    let '(obs2, over, cv1) :=
      updateAllDraw (Game.frame s) (Game.gameSpeed s) cat' obs1 (Game.isGameOver s) cv0 in
    let obs3 := Game.live obs2 in
    let frame' := (Game.frame s + 1)%Z in
    let score' := Game.nextScore frame' (Game.score s) in
    let speed' := Game.nextSpeed frame' (Game.gameSpeed s) in
    let cv2 := seqD [drawCat frame' cat';
                     drawText (hudText (Game.highScore s) score') (GAME_WIDTH - 20) 30
                       "20px" "right" "#535353"] cv1 in
    if over then
      let cv3 := seqD [drawText "GAME OVER" (GAME_WIDTH / 2) (GAME_HEIGHT / 2)
                         "20px" "center" "#535353";
                       drawText "Press Space to Restart" (GAME_WIDTH / 2) (GAME_HEIGHT / 2 + 30)
                         "16px" "center" "#888"] cv2 in
      if (score' >? Game.highScore s)%Z then
        (Game.mkGame score' score' frame' speed' true true obs3 cat' (Game.keys s) g1
           (Game.pending s) (Some score'), cv3)
      else
        (Game.mkGame score' (Game.highScore s) frame' speed' true true obs3 cat' (Game.keys s) g1
           (Game.pending s) (Game.storage s), cv3)
    else
      (Game.mkGame score' (Game.highScore s) frame' speed' false true obs3 cat' (Game.keys s) g1
         (S (Game.pending s)) (Game.storage s), cv2).

End Frame.

(** The first picture drawn by [init()] (lines 466-476), with the global
    frame counter still [0]. *)
Definition initDraw : Draw :=
  seqD [drawGround; drawCat 0 Cat.new_Cat;
        drawText "Press Space to Start" (GAME_WIDTH / 2) (GAME_HEIGHT / 2) "20px" "center" "#535353"].

(** A painted shape inside the box [[l, r] x [t, b]]; texts, strokes
    and clears are not shapes of a game object. *)
Definition inBox (l t r b : Q) (p : Paint) : Prop :=
  match p with
  | PRect _ x y w h => l <= x /\ x + w <= r /\ t <= y /\ y + h <= b
  | PFill _ subs => Forall (Forall (fun pt => l <= fst pt <= r /\ t <= snd pt <= b)) subs
  | _ => False
  end.

(** ** Drawing leaves the simulation alone *)

Section FrameState.
Context {G : Type} `{RandomSource G}.

Lemma updateAllDraw_state (frame : Z) (speed : Q) (c : Cat.Cat) (obs : list Obstacle.Obstacle)
    (over : bool) (cv : Canvas) :
  let '(obs', over', _) := updateAllDraw frame speed c obs over cv in
  (obs', over') = Game.updateAll speed c obs over.
Proof.
  induction obs as [|o obs IH] in over, cv |- *; [reflexivity|]; cbn [updateAllDraw Game.updateAll].
  specialize (IH (if checkCollision c (Obstacle.update speed o) then true else over)
                 (drawObstacle frame (Obstacle.update speed o) cv)).
  destruct (updateAllDraw _ _ _ _ _ _) as [[obs' over'] cv'].
  rewrite <- IH; reflexivity.
Qed.

(** The frame loop that draws every obstacle inside the [forEach] and
    then the cat and the texts has the effect of [Game.gameLoop] on the
    game state: the drawing-free model of [Game] is the state part of
    [gameLoopDraw]. *)
Lemma gameLoopDraw_state (s : Game.Game G) (cv : Canvas) :
  fst (gameLoopDraw s cv) = Game.gameLoop s.
Proof.
  unfold gameLoopDraw, Game.gameLoop; destruct (Game.isPlaying s); [cbn [negb]|reflexivity].
  destruct (Spawn.spawnObstacle _ _ _) as [obs1 g1].
  pose proof (updateAllDraw_state (Game.frame s) (Game.gameSpeed s)
                (Cat.update (Game.keys s) (Game.cat s)) obs1 (Game.isGameOver s)
                (drawGround cv)) as E.
  destruct (updateAllDraw _ _ _ _ _ _) as [[obs2 over] cv1]; rewrite <- E.
  destruct over; [destruct (_ >? _)%Z|]; reflexivity.
Qed.

End FrameState.

(** ** The score line *)

Lemma charsOf_app (s1 s2 : string) :
  Storage.charsOf (s1 ++ s2) = Storage.charsOf s1 ++ Storage.charsOf s2.
Proof. induction s1 as [|c s1 IH]; cbn; [reflexivity|]; unfold Storage.charsOf in *; now rewrite IH. Qed.

Lemma charsOf_inj (s1 s2 : string) : Storage.charsOf s1 = Storage.charsOf s2 -> s1 = s2.
Proof.
  intros E; apply (f_equal string_of_list_ascii) in E.
  unfold Storage.charsOf in E; rewrite !string_of_list_ascii_of_string in E; exact E.
Qed.

Lemma spanDigits_zeros (k : nat) (l : list ascii) :
  Storage.spanDigits 10 (repeat "0"%char k ++ l) =
  let (ds, r) := Storage.spanDigits 10 l in (repeat 0%Z k ++ ds, r).
Proof.
  induction k as [|k IH]; cbn [repeat app]; [now destruct (Storage.spanDigits 10 l)|].
  cbn [Storage.spanDigits]; rewrite IH; now destruct (Storage.spanDigits 10 l).
Qed.

Lemma horner_zeros (k : nat) (ds : list Z) :
  Storage.horner 10 (repeat 0%Z k ++ ds) = Storage.horner 10 ds.
Proof.
  unfold Storage.horner; rewrite fold_left_app; f_equal.
  induction k as [|k IH]; [reflexivity|exact IH].
Qed.

Lemma padded_digits (n : Z) :
  (0 <= n)%Z ->
  exists ds, Storage.spanDigits 10 (Storage.charsOf (padStart 5 "0" (Storage.String_of_Z n))) = (ds, [])
        /\ ds <> [] /\ Storage.horner 10 ds = n.
Proof.
  intros Hn; destruct n as [|p|p]; [|clear Hn|lia].
  - exists [0; 0; 0; 0; 0]%Z; vm_compute; repeat split; congruence.
  - unfold Storage.String_of_Z; cbn [Z.to_int NilZero.string_of_int].
    rewrite Storage.NilZero_uint by apply Storage.pos_uint_nonnil.
    unfold padStart; rewrite charsOf_app; unfold Storage.charsOf at 1.
    rewrite list_ascii_of_string_of_list_ascii, spanDigits_zeros, Storage.spanDigits_uint.
    eexists; split; [reflexivity|]; split.
    + pose proof (Storage.pos_uint_nonnil p); intros E; apply app_eq_nil in E as [_ E].
      destruct (Pos.to_uint p); cbn in E; congruence.
    + rewrite horner_zeros, Storage.horner_uint, Storage.pos_uint; reflexivity.
Qed.

Lemma padded_value (n : Z) :
  (0 <= n < 10 ^ 21)%Z ->
  Storage.num_eq (Storage.StringToNumber (padStart 5 "0" (Storage.String_of_Z n)))
    (Storage.Finite (inject_Z n)).
Proof.
  intros Hb; destruct (padded_digits n) as (ds & Sp & Hne & Hv); [lia|].
  pose proof (Storage.digits_value _ ds Sp Hne ltac:(lia)) as V; rewrite Hv in V; exact V.
Qed.

Lemma padded_inj (a b : Z) :
  (0 <= a < 10 ^ 21)%Z -> (0 <= b < 10 ^ 21)%Z ->
  padStart 5 "0" (Storage.String_of_Z a) = padStart 5 "0" (Storage.String_of_Z b) -> a = b.
Proof.
  intros Ha Hb E; pose proof (padded_value a Ha) as Va; pose proof (padded_value b Hb) as Vb.
  rewrite E in Va; apply inject_Z_injective.
  destruct Storage.num_eq_Equivalence as [_ Sy Tr]; exact (Tr _ _ _ (Sy _ _ Va) Vb).
Qed.

Lemma hudText_inj (a b sc : Z) :
  (0 <= a < 10 ^ 21)%Z -> (0 <= b < 10 ^ 21)%Z -> hudText a sc = hudText b sc -> a = b.
Proof.
  intros Ha Hb E; unfold hudText in E; injection E as E.
  apply (f_equal Storage.charsOf) in E; rewrite !charsOf_app in E.
  apply app_inv_tail, charsOf_inj in E; exact (padded_inj a b Ha Hb E).
Qed.

Lemma drawText_painted (t : string) (x y : Q) (size align color : string) (cv : Canvas) :
  painted (drawText t x y size align color cv) =
  painted cv ++ [PText color (courierFont size) align t x y].
Proof. reflexivity. Qed.

Section Hud.
Context {G : Type} `{RandomSource G}.

(** Every frame of a running game paints the score line with the high
    score as it was before the frame and the score after it. *)
Lemma gameLoopDraw_hud (s : Game.Game G) (cv : Canvas) :
  Game.isPlaying s = true ->
  In (PText "#535353" (courierFont "20px") "right"
        (hudText (Game.highScore s) (Game.score (fst (gameLoopDraw s cv)))) (GAME_WIDTH - 20) 30)
     (painted (snd (gameLoopDraw s cv))).
Proof.
  intros Pl; unfold gameLoopDraw; rewrite Pl; cbn [negb].
  destruct (Spawn.spawnObstacle _ _ _) as [obs1 g1].
  destruct (updateAllDraw _ _ _ _ _ _) as [[obs2 over] cv1].
  destruct over; [destruct (_ >? _)%Z|]; cbn [fst snd Game.score seqD];
    rewrite !drawText_painted, <- ?app_assoc; apply in_or_app; right; left; reflexivity.
Qed.

(** C29: the frame that ends a round with a new best score draws the
    score line before the high score is updated: the line painted shows
    the previous best, which differs from the high score the game now
    holds, and no later frame redraws it until a restart. *)
Theorem game_over_hud_stale (s : Game.Game G) (cv : Canvas) :
  Game.isPlaying s = true -> (0 <= Game.highScore s)%Z ->
  Game.isGameOver (fst (gameLoopDraw s cv)) = true ->
  (Game.highScore s < Game.highScore (fst (gameLoopDraw s cv)) < 10 ^ 21)%Z ->
  In (PText "#535353" (courierFont "20px") "right"
        (hudText (Game.highScore s) (Game.score (fst (gameLoopDraw s cv)))) (GAME_WIDTH - 20) 30)
     (painted (snd (gameLoopDraw s cv))) /\
  hudText (Game.highScore s) (Game.score (fst (gameLoopDraw s cv))) <>
  hudText (Game.highScore (fst (gameLoopDraw s cv))) (Game.score (fst (gameLoopDraw s cv))).
Proof.
  intros Pl Hs Ov Hb; split; [apply gameLoopDraw_hud; assumption|].
  intros E; apply hudText_inj in E; lia.
Qed.

(** C30: every frame of a running game paints a score line that reads
    as the two counters in the order the player expects: after the
    label [HI ] comes a field that [Number] reads as the high score the
    game had before the frame, then two spaces, then a field that reads
    as the score after the frame. *)
Theorem score_line_shows_counters (s : Game.Game G) (cv : Canvas) :
  Game.isPlaying s = true ->
  (0 <= Game.highScore s < 10 ^ 21)%Z -> (0 <= Game.score (Game.gameLoop s) < 10 ^ 21)%Z ->
  exists p q,
    In (PText "#535353" (courierFont "20px") "right" ("HI " ++ p ++ "  " ++ q)%string
          (GAME_WIDTH - 20) 30)
       (painted (snd (gameLoopDraw s cv))) /\
    Storage.num_eq (Storage.StringToNumber p) (Storage.Finite (inject_Z (Game.highScore s))) /\
    Storage.num_eq (Storage.StringToNumber q)
      (Storage.Finite (inject_Z (Game.score (Game.gameLoop s)))).
Proof.
  intros Pl Hh Hs; do 2 eexists; split; [|split; apply padded_value; eassumption].
  pose proof (gameLoopDraw_hud s cv Pl) as H'; rewrite gameLoopDraw_state in H'; exact H'.
Qed.

End Hud.

(** ** Where the pictures lie *)

(** C31: the cat's picture starts with its hitbox, filled, and every
    other shape of it (ears, tail, eyes, legs) lies within the hitbox
    widened by 8 pixels to the left and upward and 4 pixels downward. *)
Theorem cat_picture (f : Z) (c : Cat.Cat) (cv : Canvas) :
  Cat.Cat_wf c ->
  exists ps, painted (drawCat f c cv) =
             painted cv ++ PRect "#333" (Cat.x c) (Cat.y c) (Cat.w c) (Cat.h c) :: ps /\
    Forall (inBox (Cat.x c - 8) (Cat.y c - 8) (Cat.x c + Cat.w c) (Cat.y c + Cat.h c + 4)) ps.
Proof.
  intros W; pose proof (Cat.wf_w _ W) as Hw; pose proof (Cat.wf_h_range _ W) as Hh.
  unfold CAT_WIDTH, CAT_CROUCH_HEIGHT, CAT_HEIGHT in *.
  unfold drawCat; destruct (Cat.isCrouching c), (Cat.isGrounded c), ((f / 6) mod 2 =? 0)%Z;
    cbn [negb seqD]; eexists; (split; [cbn; rewrite <- !app_assoc; reflexivity|]);
    repeat constructor; cbn [fst snd]; lra.
Qed.

Lemma inBox_widen (l t r b l' t' r' b' : Q) (p : Paint) :
  l' <= l -> t' <= t -> r <= r' -> b <= b' -> inBox l t r b p -> inBox l' t' r' b' p.
Proof.
  intros L T R B; destruct p; cbn; try tauto; [lra|].
  apply Forall_impl; intros sub; apply Forall_impl; intros pt; lra.
Qed.

Lemma singleW_eq (w k : Q) (g : Z) : w == k * inject_Z g -> (1 <= g)%Z -> w / inject_Z g == k.
Proof. intros Hw Hg; rewrite Hw; field; intros Z0; unfold Qeq in Z0; cbn in Z0; lia. Qed.

(** The member loop of a cluster of [g] members: the member width is
    [k], and each case of [g] is drawn out. *)
Ltac member_loop Hw Hg :=
  match goal with
  | |- context [Obstacle.w ?o / inject_Z (Obstacle.groupSize ?o)] =>
      pose proof (singleW_eq _ _ _ Hw ltac:(lia)) as Hsw;
      rewrite <- (Z2Nat.id (Obstacle.groupSize o)) in Hw by lia;
      set (sw := Obstacle.w o / inject_Z (Obstacle.groupSize o)) in *; clearbody sw;
      destruct (Z.to_nat (Obstacle.groupSize o)) as [|[|[|[|n]]]] eqn:N; try lia;
      unfold forLoop; cbn [seq map seqD]
  end.

Ltac picture_bounds :=
  eexists; (split; [cbn; rewrite <- ?app_assoc; reflexivity|]);
  repeat constructor; cbn [fst snd Z.of_nat Pos.of_succ_nat Pos.succ] in *;
  unfold inject_Z, Qdiv in *; change (/ 3) with (1 # 3) in *; lra.

Lemma cactus_picture (o : Obstacle.Obstacle) (cv : Canvas) :
  Obstacle.Geometry o -> Obstacle.type o = Obstacle.CACTUS ->
  exists ps, painted (drawCactus o cv) = painted cv ++ ps /\
    Forall (inBox (Obstacle.x o) (Obstacle.y o) (Obstacle.x o + Obstacle.w o) (Obstacle.y o + Obstacle.h o)) ps.
Proof.
  intros Gm T; unfold Obstacle.Geometry in Gm; rewrite T in Gm.
  destruct Gm as (Hg & Hw & Hh1 & Hh2 & _); unfold drawCactus; member_loop Hw Hg; picture_bounds.
Qed.

Lemma trashCan_picture (o : Obstacle.Obstacle) (cv : Canvas) :
  Obstacle.Geometry o -> Obstacle.type o = Obstacle.TRASH_CAN ->
  exists ps, painted (drawTrashCan o cv) = painted cv ++ ps /\
    Forall (inBox (Obstacle.x o - 2) (Obstacle.y o) (Obstacle.x o + Obstacle.w o) (Obstacle.y o + Obstacle.h o)) ps.
Proof.
  intros Gm T; unfold Obstacle.Geometry in Gm; rewrite T in Gm.
  destruct Gm as (Hg & Hw & Hh1 & Hh2 & _); unfold drawTrashCan; member_loop Hw Hg; picture_bounds.
Qed.

Lemma bird_picture (f : Z) (o : Obstacle.Obstacle) (cv : Canvas) :
  Obstacle.Geometry o -> Obstacle.type o = Obstacle.BIRD ->
  exists ps, painted (drawBird f o cv) = painted cv ++ ps /\
    Forall (inBox (Obstacle.x o - 5) (Obstacle.y o - 5) (Obstacle.x o + Obstacle.w o) (Obstacle.y o + Obstacle.h o)) ps.
Proof.
  intros Gm T; unfold Obstacle.Geometry in Gm; rewrite T in Gm.
  destruct Gm as (_ & Hw & Hh & _); unfold drawBird; destruct ((f / 10) mod 2 =? 0)%Z;
    cbn [seqD]; picture_bounds.
Qed.

(** C32: everything drawn for an obstacle of its type's geometry lies
    within its hitbox widened by 5 pixels to the left and upward (the
    bird's beak and raised wings; the trash cans' lid overhangs by 2),
    and a cactus lies inside its hitbox. *)
Theorem obstacle_picture (f : Z) (o : Obstacle.Obstacle) (cv : Canvas) :
  Obstacle.geometry_ok o = true ->
  exists ps, painted (drawObstacle f o cv) = painted cv ++ ps /\
    Forall (inBox (Obstacle.x o - 5) (Obstacle.y o - 5)
              (Obstacle.x o + Obstacle.w o) (Obstacle.y o + Obstacle.h o)) ps /\
    (Obstacle.type o = Obstacle.CACTUS ->
     Forall (inBox (Obstacle.x o) (Obstacle.y o)
               (Obstacle.x o + Obstacle.w o) (Obstacle.y o + Obstacle.h o)) ps).
Proof.
  intros Gm%Obstacle.geometry_ok_iff; unfold drawObstacle.
  destruct (Obstacle.type o) eqn:T.
  - destruct (cactus_picture o cv Gm T) as (ps & E & B); exists ps; repeat split; auto.
    refine (Forall_impl _ _ B); intros p; apply inBox_widen; lra.
  - destruct (trashCan_picture o cv Gm T) as (ps & E & B); exists ps; repeat split; [auto| |discriminate].
    refine (Forall_impl _ _ B); intros p; apply inBox_widen; lra.
  - destruct (bird_picture f o cv Gm T) as (ps & E & B); exists ps; repeat split; auto; discriminate.
Qed.


(** ** Witnesses *)

(** The state of a fresh 2D context: black styles, a 1-pixel line, the
    default font and alignment, no path and nothing painted. *)
Definition freshCanvas : Canvas := mkCanvas "#000000" "#000000" 1 "10px sans-serif" "start" [] [].

(** A running round with score 7 and best 3 at frame 34, a cactus in
    front of the cat: the next frame scores an eighth point and ends. *)
Definition record_crash_state : Game.Game Lcg :=
  Game.mkGame 7 3 34 5 false true [Obstacle.mkObstacle 60 140 20 35 Obstacle.CACTUS false 1]
    Cat.new_Cat keys0 (MkLcg 1) 1 (Some 3%Z).

Lemma game_over_hud_stale_witness :
  let r := gameLoopDraw record_crash_state freshCanvas in
  In (PText "#535353" (courierFont "20px") "right"
        (hudText (Game.highScore record_crash_state) (Game.score (fst r))) (GAME_WIDTH - 20) 30)
     (painted (snd r)) /\
  hudText (Game.highScore record_crash_state) (Game.score (fst r)) <>
  hudText (Game.highScore (fst r)) (Game.score (fst r)).
Proof.
  apply game_over_hud_stale; [reflexivity | cbn; lia | vm_compute; reflexivity | vm_compute; split; reflexivity].
Defined.

Lemma score_line_shows_counters_witness :
  exists p q,
    In (PText "#535353" (courierFont "20px") "right" ("HI " ++ p ++ "  " ++ q)%string
          (GAME_WIDTH - 20) 30)
       (painted (snd (gameLoopDraw record_crash_state freshCanvas))) /\
    Storage.num_eq (Storage.StringToNumber p)
      (Storage.Finite (inject_Z (Game.highScore record_crash_state))) /\
    Storage.num_eq (Storage.StringToNumber q)
      (Storage.Finite (inject_Z (Game.score (Game.gameLoop record_crash_state)))).
Proof.
  assert (E : Game.score (Game.gameLoop record_crash_state) = 8%Z) by (vm_compute; reflexivity).
  apply score_line_shows_counters; [reflexivity | cbn; lia | rewrite E; lia].
Defined.

Lemma cat_picture_witness :
  exists ps, painted (drawCat 0 Cat.new_Cat freshCanvas) =
             painted freshCanvas ++ PRect "#333" (Cat.x Cat.new_Cat) (Cat.y Cat.new_Cat)
                                      (Cat.w Cat.new_Cat) (Cat.h Cat.new_Cat) :: ps /\
    Forall (inBox (Cat.x Cat.new_Cat - 8) (Cat.y Cat.new_Cat - 8)
              (Cat.x Cat.new_Cat + Cat.w Cat.new_Cat) (Cat.y Cat.new_Cat + Cat.h Cat.new_Cat + 4)) ps.
Proof. apply cat_picture, Cat.new_Cat_wf. Defined.

Lemma obstacle_picture_witness :
  let o := Obstacle.mkObstacle 700 125 40 25 Obstacle.BIRD false 1 in
  exists ps, painted (drawObstacle 0 o freshCanvas) = painted freshCanvas ++ ps /\
    Forall (inBox (Obstacle.x o - 5) (Obstacle.y o - 5)
              (Obstacle.x o + Obstacle.w o) (Obstacle.y o + Obstacle.h o)) ps /\
    (Obstacle.type o = Obstacle.CACTUS ->
     Forall (inBox (Obstacle.x o) (Obstacle.y o)
               (Obstacle.x o + Obstacle.w o) (Obstacle.y o + Obstacle.h o)) ps).
Proof. apply obstacle_picture; vm_compute; reflexivity. Defined.

End Render.
